(** * zyx-mongodb: tenant data access and account security

    A shallow embedding of the JavaScript sources of zyx-mongodb
    (userSchema.js, createDB.js, createLog.js, mongoDatabase.js,
    mongoModel.js, mongoLog.js) together with the properties stated for them.

    Conventions of the embedding.
    - An [async] function or a function that may [throw] returns a
      [completion]: [Normal v] for a fulfilled promise or a plain return,
      [Throw e] for a rejection or an exception.
    - Code that mutates [this] or talks to the store takes the state before
      and returns the state after.
    - A [Date] is its time value: milliseconds since the epoch, an integer.
      [Date.now()] is an explicit argument [now].
    - [failedLoginAttempts] is a JavaScript Number that holds a count; counts
      are integers far below 2^53, where Number addition is integer addition,
      so the field is a [Z].
    - A Number that need not be an integer is the rational it denotes;
      Number arithmetic on such values rounds each result to the nearest
      double ([roundToDouble]). [Math.random()] is an explicit argument, a
      double in [0, 1). *)

From Stdlib Require Import ZArith QArith Qround Qpower String Ascii List Bool Lia.
From Stdlib Require Import DecimalString.
From stdpp Require Import gmap strings list.

#[local] Close Scope Q_scope.
#[local] Open Scope string_scope.
#[local] Open Scope Z_scope.

(** ** Completions *)

Inductive JsError : Type :=
| Error (message : string)
| TypeError (message : string).

Definition message_of (e : JsError) : string :=
  match e with
  | Error m => m
  | TypeError m => m
  end.

Inductive completion (E A : Type) : Type :=
| Normal (value : A)
| Throw (reason : E).

Arguments Normal {E A} value.
Arguments Throw {E A} reason.

Definition is_normal {E A} (c : completion E A) : bool :=
  match c with
  | Normal _ => true
  | Throw _ => false
  end.

(** Time values: milliseconds since the epoch. *)
Definition time : Type := Z.

(** ** JavaScript values and strings *)

(** [Number.prototype.toString()] on an integer: its decimal digits. *)
Definition toString (n : Z) : string := NilZero.string_of_int (Z.to_int n).

(** The double quote character, for messages that quote a name. *)
Definition dquote : string := String (ascii_of_nat 34) EmptyString.

(** The values handed to the log methods, and [String(value)]. *)
Inductive JsValue : Type :=
| VUndefined
| VNull
| VBoolean (b : bool)
| VNumber (n : Z)
| VString (s : string).

Definition JsString (v : JsValue) : string :=
  match v with
  | VUndefined => "undefined"
  | VNull => "null"
  | VBoolean true => "true"
  | VBoolean false => "false"
  | VNumber n => toString n
  | VString s => s
  end.

(** [array.join(separator)] on strings. *)
Definition join (separator : string) (parts : list string) : string :=
  String.concat separator parts.

(** [haystack] contains [needle]: the test of a regular expression that is a
    plain word sequence. *)
Fixpoint includes (needle haystack : string) : bool :=
  String.prefix needle haystack ||
  match haystack with
  | EmptyString => false
  | String _ rest => includes needle rest
  end.

(** Truthiness of an optional boolean and of an optional number. *)
Definition truthyBool (b : option bool) : bool :=
  match b with
  | Some true => true
  | _ => false
  end.

Definition truthyNumber (n : option Z) : bool :=
  match n with
  | Some v => negb (v =? 0)
  | None => false
  end.

(** What [new Schema({...}).validate(tenant)] of zyx-schema reports for one
    broken rule. *)
Record ValidationError : Type := { message : string }.

(** ** Number arithmetic

    A JavaScript Number is an IEEE 754 binary64 value. A finite Number is the
    rational it denotes; an arithmetic operation computes the exact result
    and rounds it to the nearest double, ties to the double with the even
    significand. Results beyond the largest finite double, NaN and the sign
    of zero do not arise in the sources and are not part of the model. *)

(** The integer part of the binary logarithm of a positive rational: the
    [l] with [2^l <= x < 2^(l+1)]. *)
Definition floorLog2 (x : Q) : Z :=
  let l := Z.log2 (Qnum x) - Z.log2 (Zpos (Qden x)) in
  if Qle_bool (2 ^ l)%Q x then l else l - 1.

(** The nearest integer, a tie going to the even one. *)
Definition roundHalfEven (q : Q) : Z :=
  let f := Qfloor q in
  match (q - inject_Z f ?= 1 # 2)%Q with
  | Lt => f
  | Gt => f + 1
  | Eq => if Z.even f then f else f + 1
  end.

(** The exponent of the unit in the last place of the doubles around a
    positive [x]: 53 significant bits, and never below the exponent -1074 of
    the subnormal doubles. *)
Definition exponentOf (x : Q) : Z := Z.max (floorLog2 x - 52) (-1074).

Definition roundPositive (x : Q) : Q :=
  let e := exponentOf x in
  (inject_Z (roundHalfEven (x / 2 ^ e)) * 2 ^ e)%Q.

(** The double nearest to [x]. *)
Definition roundToDouble (x : Q) : Q :=
  match (x ?= 0)%Q with
  | Eq => 0%Q
  | Gt => roundPositive x
  | Lt => (- roundPositive (- x))%Q
  end.

(** The rationals that are doubles: those that rounding leaves alone. *)
Definition isDouble (x : Q) : Prop := (roundToDouble x == x)%Q.

(** Two doubles used as examples: the double nearest to 1/3 and the largest
    double below 1. *)
Definition third : Q := 6004799503160661 # 18014398509481984.
Definition almostOne : Q := 9007199254740991 # 9007199254740992.

(** ** userSchema.js *)

Module UserSchema.

(** Constants (userSchema.js, lines 10 to 13). *)
Definition SALT_ROUNDS : Z := 12.
Definition CODE_EXPIRATION_MINUTES : Z := 15.
Definition MAX_FAILED_ATTEMPTS : Z := 5.
Definition ACCOUNT_LOCK_DURATION_MS : Z := 15 * 60 * 1000.

(** [Math.floor(100 + Math.random() * 900)], with [r] the value returned by
    [Math.random()]. The product and then the sum are Number operations, each
    rounded to the nearest double; 100 and 900 are doubles, and the floor of
    a double of this size is an integer that Number holds exactly. *)
Definition codePart (r : Q) : Z :=
  Qfloor (roundToDouble (100 + roundToDouble (r * 900)))%Q.

(** [generateCode()]; [r1] and [r2] are the two draws of [Math.random()]. *)
Definition generateCode (r1 r2 : Q) : string :=
  let part1 := toString (codePart r1) in
  let part2 := toString (codePart r2) in
  part1 ++ "-" ++ part2.

(** A decimal digit, [\d]. *)
Definition isDigit (c : ascii) : bool :=
  let n := nat_of_ascii c in (48 <=? n)%nat && (n <=? 57)%nat.

(** Three decimal digits, [/^\d{3}$/]. *)
Definition threeDigits (s : string) : bool :=
  match s with
  | String a (String b (String c EmptyString)) =>
      isDigit a && isDigit b && isDigit c
  | _ => false
  end.

(** The regular expression [/^\d{3}-\d{3}$/] of the schema. *)
Definition matchesCodeFormat (s : string) : bool :=
  match s with
  | String a (String b (String c (String h
      (String d (String e (String f EmptyString)))))) =>
      isDigit a && isDigit b && isDigit c && Ascii.eqb h "-"%char
      && isDigit d && isDigit e && isDigit f
  | _ => false
  end.

(** The fields of a user document. An optional field that is [undefined]
    is [None]. [passwordHashModified] is what mongoose's
    [this.isModified("passwordHash")] answers for the document. *)
Record User : Type := mkUser {
  email : string;
  passwordHash : string;
  role : string;
  firstname : string;
  lastname : string;
  isVerified : bool;
  verifyCode : option string;
  verifyCodeExpiresAt : option time;
  failedLoginAttempts : Z;
  lockUntil : option time;
  resetCode : option string;
  resetCodeExpiresAt : option time;
  lastLoginAt : option time;
  passwordHashModified : bool
}.

Definition set_passwordHash (v : string) (u : User) : User :=
  mkUser (email u) v (role u) (firstname u) (lastname u) (isVerified u)
    (verifyCode u) (verifyCodeExpiresAt u) (failedLoginAttempts u)
    (lockUntil u) (resetCode u) (resetCodeExpiresAt u) (lastLoginAt u)
    (passwordHashModified u).

Definition set_isVerified (v : bool) (u : User) : User :=
  mkUser (email u) (passwordHash u) (role u) (firstname u) (lastname u) v
    (verifyCode u) (verifyCodeExpiresAt u) (failedLoginAttempts u)
    (lockUntil u) (resetCode u) (resetCodeExpiresAt u) (lastLoginAt u)
    (passwordHashModified u).

Definition set_verifyCode (v : option string) (u : User) : User :=
  mkUser (email u) (passwordHash u) (role u) (firstname u) (lastname u)
    (isVerified u) v (verifyCodeExpiresAt u) (failedLoginAttempts u)
    (lockUntil u) (resetCode u) (resetCodeExpiresAt u) (lastLoginAt u)
    (passwordHashModified u).

Definition set_verifyCodeExpiresAt (v : option time) (u : User) : User :=
  mkUser (email u) (passwordHash u) (role u) (firstname u) (lastname u)
    (isVerified u) (verifyCode u) v (failedLoginAttempts u)
    (lockUntil u) (resetCode u) (resetCodeExpiresAt u) (lastLoginAt u)
    (passwordHashModified u).

Definition set_failedLoginAttempts (v : Z) (u : User) : User :=
  mkUser (email u) (passwordHash u) (role u) (firstname u) (lastname u)
    (isVerified u) (verifyCode u) (verifyCodeExpiresAt u) v
    (lockUntil u) (resetCode u) (resetCodeExpiresAt u) (lastLoginAt u)
    (passwordHashModified u).

Definition set_lockUntil (v : option time) (u : User) : User :=
  mkUser (email u) (passwordHash u) (role u) (firstname u) (lastname u)
    (isVerified u) (verifyCode u) (verifyCodeExpiresAt u)
    (failedLoginAttempts u) v (resetCode u) (resetCodeExpiresAt u)
    (lastLoginAt u) (passwordHashModified u).

Definition set_resetCode (v : option string) (u : User) : User :=
  mkUser (email u) (passwordHash u) (role u) (firstname u) (lastname u)
    (isVerified u) (verifyCode u) (verifyCodeExpiresAt u)
    (failedLoginAttempts u) (lockUntil u) v (resetCodeExpiresAt u)
    (lastLoginAt u) (passwordHashModified u).

Definition set_resetCodeExpiresAt (v : option time) (u : User) : User :=
  mkUser (email u) (passwordHash u) (role u) (firstname u) (lastname u)
    (isVerified u) (verifyCode u) (verifyCodeExpiresAt u)
    (failedLoginAttempts u) (lockUntil u) (resetCode u) v
    (lastLoginAt u) (passwordHashModified u).

Definition set_lastLoginAt (v : option time) (u : User) : User :=
  mkUser (email u) (passwordHash u) (role u) (firstname u) (lastname u)
    (isVerified u) (verifyCode u) (verifyCodeExpiresAt u)
    (failedLoginAttempts u) (lockUntil u) (resetCode u)
    (resetCodeExpiresAt u) v (passwordHashModified u).

(** The part of the bcrypt package the schema calls. [genSalt] draws a salt
    from the entropy it is given; [hash] is a function of the data and the
    salt; both may reject. [compare] answers whether the data hashes to the
    encrypted string. *)
Class Bcrypt : Type := {
  bcrypt_genSalt : Z -> Z -> completion JsError string;
  bcrypt_hash : string -> string -> completion JsError string;
  bcrypt_compare : string -> string -> bool
}.

Section Methods.
Context `{Bcrypt}.

(** [verifyPassword(candidatePassword)]. *)
Definition verifyPassword (candidatePassword : string) (this : User) : bool :=
  bcrypt_compare candidatePassword (passwordHash this).

(** [isAccountLocked()]:
    [!!this.lockUntil && this.lockUntil > Date.now()]. *)
Definition isAccountLocked (now : time) (this : User) : bool :=
  match lockUntil this with
  | None => false
  | Some until => now <? until
  end.

(** [resetLock()]. *)
Definition resetLock (this : User) : User :=
  set_lockUntil None (set_failedLoginAttempts 0 this).

(** [incrementLoginAttempts()]. *)
Definition incrementLoginAttempts (now : time) (this : User) : User :=
  let this1 := set_failedLoginAttempts (failedLoginAttempts this + 1) this in
  if MAX_FAILED_ATTEMPTS <=? failedLoginAttempts this1
  then set_lockUntil (Some (now + ACCOUNT_LOCK_DURATION_MS)) this1
  else this1.

(** [generateVerifyCode()]: the code it returns and the document after. *)
Definition generateVerifyCode (now : time) (r1 r2 : Q) (this : User)
  : string * User :=
  let code := generateCode r1 r2 in
  let this1 := set_verifyCode (Some code) this in
  let this2 :=
    set_verifyCodeExpiresAt
      (Some (now + CODE_EXPIRATION_MINUTES * 60 * 1000)) this1 in
  (code, this2).

(** [generateResetCode()]. *)
Definition generateResetCode (now : time) (r1 r2 : Q) (this : User)
  : string * User :=
  let code := generateCode r1 r2 in
  let this1 := set_resetCode (Some code) this in
  let this2 :=
    set_resetCodeExpiresAt
      (Some (now + CODE_EXPIRATION_MINUTES * 60 * 1000)) this1 in
  (code, this2).

(** The [pre("save")] hook. [Normal this'] is [next()] with the document
    as the hook leaves it, [Throw err] is [next(err)]. [entropy] is what
    [bcrypt.genSalt] draws the salt from. *)
Definition preSave (entropy : Z) (this : User) : completion JsError User :=
  if negb (passwordHashModified this) then Normal this
  else
    match bcrypt_genSalt SALT_ROUNDS entropy with
    | Throw err => Throw err
    | Normal salt =>
        match bcrypt_hash (passwordHash this) salt with
        | Throw err => Throw err
        | Normal hashed => Normal (set_passwordHash hashed this)
        end
    end.

(** The instance methods and the hook as operations on one document, for
    statements about sequences of calls. Every call reads the clock. *)
Inductive AccountOp : Type :=
| CallVerifyPassword (candidatePassword : string)
| CallIsAccountLocked
| CallResetLock
| CallIncrementLoginAttempts
| CallGenerateVerifyCode (r1 r2 : Q)
| CallGenerateResetCode (r1 r2 : Q)
| CallSave (entropy : Z).

Definition isResetLock (op : AccountOp) : bool :=
  match op with
  | CallResetLock => true
  | _ => false
  end.

Definition isIncrement (op : AccountOp) : bool :=
  match op with
  | CallIncrementLoginAttempts => true
  | _ => false
  end.

(** The document after one call made at time [now]. A save whose hook
    reports an error leaves the document as it was. *)
Definition runOp (call : time * AccountOp) (this : User) : User :=
  let '(now, op) := call in
  match op with
  | CallVerifyPassword _ => this
  | CallIsAccountLocked => this
  | CallResetLock => resetLock this
  | CallIncrementLoginAttempts => incrementLoginAttempts now this
  | CallGenerateVerifyCode r1 r2 => snd (generateVerifyCode now r1 r2 this)
  | CallGenerateResetCode r1 r2 => snd (generateResetCode now r1 r2 this)
  | CallSave entropy =>
      match preSave entropy this with
      | Normal this' => this'
      | Throw _ => this
      end
  end.

Definition runOps (calls : list (time * AccountOp)) (this : User) : User :=
  fold_left (fun doc call => runOp call doc) calls this.

End Methods.

(** The number of [incrementLoginAttempts] calls in a sequence. *)
Definition increments (calls : list (time * AccountOp)) : Z :=
  Z.of_nat (length (List.filter (fun call => isIncrement (snd call)) calls)).

(** What bcrypt digests of a password: the first 72 of its bytes. A
    password is the string of the bytes bcrypt receives. *)
Definition bcryptKey (password : string) : string := substring 0 72 password.

(** The property stated for the hash a save stores for the password [p]: it
    accepts [p], rejects every other string, and is not [p] itself. *)
Definition verifiesOnly `{Bcrypt} (p : string) (saved : User) : Prop :=
  verifyPassword p saved = true /\
  (forall q, q <> p -> verifyPassword q saved = false) /\
  passwordHash saved <> p.

(** The contract of the bcrypt package that the properties of the password
    hash rest on: a hash accepts exactly the passwords with the key of the
    hashed one, and is not the hashed password itself. *)
Class BcryptLaws (B : Bcrypt) : Prop := {
  compare_hash : forall data salt encrypted candidate,
    bcrypt_hash data salt = Normal encrypted ->
    bcrypt_compare candidate encrypted = true <->
    bcryptKey candidate = bcryptKey data;
  hash_not_data : forall data salt encrypted,
    bcrypt_hash data salt = Normal encrypted -> encrypted <> data
}.

(** A stand-in for the bcrypt package, to run the definitions on examples:
    the salt is a printed number, the hash is the key of the data behind a
    marker that differs from the first character of the data. *)
Definition standInMarker (data : string) : ascii :=
  match data with
  | String c _ => if Ascii.eqb c "$" then "#"%char else "$"%char
  | EmptyString => "$"%char
  end.

#[global] Instance standInBcrypt : Bcrypt := {
  bcrypt_genSalt rounds entropy :=
    Normal ("$2b$" ++ toString rounds ++ "$" ++ toString entropy);
  bcrypt_hash data salt := Normal (String (standInMarker data) (bcryptKey data));
  bcrypt_compare candidate encrypted :=
    match encrypted with
    | String m digest =>
        (Ascii.eqb m "$" || Ascii.eqb m "#") && String.eqb digest (bcryptKey candidate)
    | EmptyString => false
    end
}.

(** User documents for the examples: [alice] has a freshly set password,
    [bob] has a verify code and a reset code pending until time 5000, and
    [dave] has four failed attempts and the stand-in hash of "secret". *)
Definition alice : User :=
  mkUser "alice@example.org" "secret" "user" "Alice" "Liddell" false
         None None 4 None None None None true.

Definition bob : User :=
  mkUser "bob@example.org" "$2b$12$abcdefghijklmnopqrstuv" "user" "Bob" "Stone"
         false (Some "123-456") (Some 5000) 0 None (Some "123-456") (Some 5000)
         None false.

Definition dave : User :=
  mkUser "dave@example.org" "$secret" "user" "Dave" "Bowman" true
         None None 4 None None None None false.

(** A string of 72 bytes, a password that continues it by one byte, and
    [erin], whose password was just set to the longer one. *)
Definition seventyTwoBytes : string :=
  "aaaaaaaaaaaaaaaaaaaaaaaaaaaaaaaaaaaaaaaaaaaaaaaaaaaaaaaaaaaaaaaaaaaaaaaa".

Definition longPassword : string := seventyTwoBytes ++ "b".

Definition erin : User :=
  mkUser "erin@example.org" longPassword "user" "Erin" "Gray" false
         None None 0 None None None None true.

End UserSchema.

(** ** Account flows of the specification

    userSchema.js has the building blocks ([isAccountLocked],
    [verifyPassword], [resetLock], [incrementLoginAttempts], the code
    generators) but neither [authenticate] nor the two code consumers. *)

Module AccountSecurity.
Import UserSchema.

Inductive SecurityError : Type :=
| AccountLockedError
| CodeExpiredError
| CodeMismatchError.

Section Flows.
Context `{Bcrypt}.

(** Modelled from the spec: [authenticate(candidate)] is missing from the
    sources. It fails with [AccountLockedError] if the account is locked;
    otherwise it verifies the password; on success it resets the lockout
    counters and updates [lastLoginAt]; on failure it counts the attempt,
    which locks the account when the threshold is reached. The caller
    receives a boolean. *)
Definition authenticate (now : time) (candidate : string) (this : User)
  : completion SecurityError bool * User :=
  if isAccountLocked now this then (Throw AccountLockedError, this)
  else if verifyPassword candidate this
  then (Normal true, set_lastLoginAt (Some now) (resetLock this))
  else (Normal false, incrementLoginAttempts now this).

End Flows.

(** Modelled from the spec: [consumeVerifyCode(candidate)] is missing from the
    sources. It succeeds only if [candidate] equals the stored code and the
    current time is before its expiry; on success the code is cleared and the
    account becomes verified. A candidate that is not the stored code (also
    when no code is stored) is a [CodeMismatchError]; the stored code past its
    expiry is a [CodeExpiredError]. *)
Definition consumeVerifyCode (now : time) (candidate : string) (this : User)
  : completion SecurityError unit * User :=
  match verifyCode this with
  | None => (Throw CodeMismatchError, this)
  | Some code =>
      if negb (String.eqb candidate code) then (Throw CodeMismatchError, this)
      else
        match verifyCodeExpiresAt this with
        | None => (Throw CodeExpiredError, this)
        | Some expiry =>
            if now <? expiry
            then (Normal tt, set_isVerified true (set_verifyCode None this))
            else (Throw CodeExpiredError, this)
        end
  end.

(** Modelled from the spec: [consumeResetCode(candidate)] is missing from the
    sources. As [consumeVerifyCode], on the reset code; the verification
    state is not changed. *)
Definition consumeResetCode (now : time) (candidate : string) (this : User)
  : completion SecurityError unit * User :=
  match resetCode this with
  | None => (Throw CodeMismatchError, this)
  | Some code =>
      if negb (String.eqb candidate code) then (Throw CodeMismatchError, this)
      else
        match resetCodeExpiresAt this with
        | None => (Throw CodeExpiredError, this)
        | Some expiry =>
            if now <? expiry
            then (Normal tt, set_resetCode None this)
            else (Throw CodeExpiredError, this)
        end
  end.

(** The outcomes of a consumer [consume] on a document with the pending code
    [code] that expires at [expiry]: success exactly for the stored code
    before its expiry; the stored code at or past its expiry is a
    [CodeExpiredError], any other candidate a [CodeMismatchError], and both
    leave the document as it is; after a success the same candidate is a
    [CodeMismatchError] at any time. *)
Definition consumeOutcomes
    (consume : time -> string -> User -> completion SecurityError unit * User)
    (now : time) (candidate code : string) (expiry : time) (this : User) : Prop :=
  (fst (consume now candidate this) = Normal tt
   <-> candidate = code /\ now < expiry) /\
  (candidate = code -> expiry <= now ->
   consume now candidate this = (Throw CodeExpiredError, this)) /\
  (candidate <> code ->
   consume now candidate this = (Throw CodeMismatchError, this)) /\
  (candidate = code -> now < expiry ->
   forall later,
     consume later candidate (snd (consume now candidate this))
     = (Throw CodeMismatchError, snd (consume now candidate this))).

End AccountSecurity.

(** ** mongoDatabase.js and mongoModel.js *)

Module MongoDatabase.

Section Registry.
Context {Schema Model Connection : Type}.

(** [connection.model(name, schema)] of mongoose: the compiled model, or the
    error mongoose raises. *)
Context (connection_model :
  Connection -> string -> Schema -> completion JsError Model).

(** The private [#mongooseConnection] ([None] while [undefined]) and the
    [models] object of the base class, keyed by model name. A model is an
    object, hence truthy: [this.models[name]] is truthy exactly when the name
    is bound. *)
Record Database : Type := mkDatabase {
  mongooseConnection : option Connection;
  models : gmap string Model
}.

Definition alreadyRegistered (name : string) : JsError :=
  Error ("Model " ++ dquote ++ name ++ dquote
         ++ " already registered for tenant.").

(** [registerModel(name, schema)]. *)
Definition registerModel (name : string) (schema : Schema) (this : Database)
  : completion JsError unit * Database :=
  match models this !! name with
  | Some _ => (Throw (alreadyRegistered name), this)
  | None =>
      match mongooseConnection this with
      | None =>
          (Throw (TypeError
             "Cannot read properties of undefined (reading 'model')"), this)
      | Some connection =>
          match connection_model connection name schema with
          | Throw err => (Throw err, this)
          | Normal model =>
              (Normal tt,
               mkDatabase (mongooseConnection this)
                          (<[name := model]> (models this)))
          end
      end
  end.

(** Modelled from the spec: [getModel(name)] forwards to [getModel] of the
    base class of zyx-base, which is not among the sources; it returns the
    model registered under the name, or nothing. *)
Definition getModel (name : string) (this : Database) : option Model :=
  models this !! name.

Definition missingSchema (className : string) : JsError :=
  Error ("Missing or invalid schema in " ++ dquote ++ className ++ dquote
         ++ ". Subclasses must override the schema() method.").

(** The constructor of [MongooseModel] in mongoModel.js, on the database of
    its tenant. [schema] is what [this.schema()] returned, [None] when that is
    falsy or not an object; the result is the [#underlyingModel] of the new
    instance. *)
Definition MongooseModel_constructor (className modelName : string) (schema : option Schema)
    (db : Database) : completion JsError (option Model) * Database :=
  match schema with
  | None => (Throw (missingSchema className), db)
  | Some schema =>
      match models db !! modelName with
      | Some _ => (Normal (getModel modelName db), db)
      | None =>
          match registerModel modelName schema db with
          | (Throw err, db') => (Throw err, db')
          | (Normal _, db') => (Normal (getModel modelName db'), db')
          end
      end
  end.

End Registry.

(** A registry of models that are pairs of a name and a schema text. *)
Definition pairModel (_ : unit) (name schema : string)
  : completion JsError (string * string) := Normal (name, schema).

Definition oneUser : Database (Model := string * string) (Connection := unit) :=
  mkDatabase (Some tt) {[ "user" := ("user", "v1") ]}.

End MongoDatabase.

(** ** createLog.js *)

Module CreateLog.

(** The tenant object handed to [createLog], before validation. *)
Record Tenant : Type := mkTenant {
  t_db_url : option string;
  t_log_collection_name : option string;
  t_log_expiration_days : option Z;
  t_log_capped : option bool;
  t_log_max_size : option Z;
  t_log_max_docs : option Z
}.

(** The [validated] object: the two required fields are present, the others
    may be [undefined]. *)
Record Validated : Type := mkValidated {
  db_url : string;
  log_collection_name : string;
  log_expiration_days : option Z;
  log_capped : option bool;
  log_max_size : option Z;
  log_max_docs : option Z
}.

(** An index of a collection: its key pattern, its name and the
    [expireAfterSeconds] option. *)
Record Index : Type := mkIndex {
  key : list (string * Z);
  name : string;
  expireAfterSeconds : option Z
}.

#[global] Instance Index_eq_dec : EqDecision Index.
Proof. solve_decision. Defined.

(** A collection of the store: the options it was created with ([Some (size,
    max)] when capped) and its indexes. *)
Record Collection : Type := mkCollection {
  capped : option (Z * Z);
  indexes : list Index
}.

Inductive Event : Type :=
| Connected (url : string)
| Debug (text : string)
| LogInfo (text : string)
| LogError (text : string).

(** The database behind [db_url], as far as [createLog] observes it: whether
    the server refuses the connection (with which message), the collections
    by name, and the connections and log lines produced so far. The store
    answers as a function of its state. *)
Record World : Type := mkWorld {
  unreachable : option string;
  collections : gmap string Collection;
  events : list Event
}.

Definition emit (e : Event) (w : World) : World :=
  mkWorld (unreachable w) (collections w) (events w ++ [e]).

Definition setCollections (cs : gmap string Collection) (w : World) : World :=
  mkWorld (unreachable w) cs (events w).

(** [if (system.isDebugging) system.debug(text)]. *)
Definition debugWhen (isDebugging : bool) (text : string) (w : World) : World :=
  if isDebugging then emit (Debug text) w else w.

(** The index every collection is created with. *)
Definition idIndex : Index := mkIndex [("_id", 1)] "_id_" None.

(** [db.createCollection(name, options)]: refused when the name is taken.
    The store of the model accepts every creation under a free name and
    every listing; a store that refuses one of these makes [createLog]
    raise through the same [catch] as the refusals below. *)
Definition createCollection (collectionName : string) (options : option (Z * Z))
    (w : World) : completion JsError unit * World :=
  match collections w !! collectionName with
  | Some _ => (Throw (Error "Collection already exists."), w)
  | None =>
      (Normal tt,
       setCollections
         (<[collectionName := mkCollection options [idIndex]]> (collections w)) w)
  end.

(** [collection.indexes()]. *)
Definition listIndexes (collectionName : string) (w : World)
  : completion JsError (list Index) :=
  match collections w !! collectionName with
  | Some c => Normal (indexes c)
  | None => Throw (Error "ns does not exist")
  end.

Definition sameKey (i j : Index) : bool := bool_decide (key i = key j).
Definition sameName (i j : Index) : bool := String.eqb (name i) (name j).

(** [collection.createIndex(key, options)]: nothing to do when the very same
    index exists; refused when another index has the name or the key
    pattern; otherwise the index is added. *)
Definition createIndex (collectionName : string) (ix : Index) (w : World)
  : completion JsError unit * World :=
  match collections w !! collectionName with
  | None =>
      (Normal tt,
       setCollections
         (<[collectionName := mkCollection None [idIndex; ix]]> (collections w)) w)
  | Some c =>
      if bool_decide (ix ∈ indexes c) then (Normal tt, w)
      else if existsb (fun i => sameName i ix || sameKey i ix) (indexes c)
      then (Throw (Error "An existing index has the same name or key."), w)
      else
        (Normal tt,
         setCollections
           (<[collectionName := mkCollection (capped c) (indexes c ++ [ix])]>
              (collections w)) w)
  end.

(** [i.key?.timestamp === 1 && i.name === "timestamp_ttl"]. *)
Definition isTimestampTtl (i : Index) : bool :=
  match List.find (fun kv => String.eqb (fst kv) "timestamp") (key i) with
  | Some (_, direction) => (direction =? 1) && String.eqb (name i) "timestamp_ttl"
  | None => false
  end.

(** The index [createLog] asks for: on [timestamp], named [timestamp_ttl],
    expiring after [days] days in seconds. *)
Definition timestampTtl (days : Z) : Index :=
  mkIndex [("timestamp", 1)] "timestamp_ttl" (Some (days * 86400)).

Inductive Transport : Type :=
| ConsoleTransport
| MongoDBTransport (db collection level : string).

Record Logger : Type := mkLogger {
  level : string;
  transports : list Transport
}.

Definition conflictingRetention : JsError :=
  Error "Cannot use both capped and TTL options on the same collection.".

Section CreateLog.

(** [new Schema({...}).validate(tenant)] of zyx-schema, with the rules the
    source declares. *)
Context (validate : Tenant -> Validated * list ValidationError).

(** [system.isDebugging]. *)
Context (isDebugging : bool).

(** The body of the [try] block. *)
Definition createLogTry (validated : Validated) (w : World)
  : completion JsError Logger * World :=
  match unreachable w with
  | Some reason => (Throw (Error reason), w)
  | None =>
      let w := emit (Connected (db_url validated)) w in
      let collectionName := log_collection_name validated in
      let exists_ := bool_decide (is_Some (collections w !! collectionName)) in
      let created :=
        if negb exists_ then
          if truthyBool (log_capped validated)
             && truthyNumber (log_max_size validated)
             && truthyNumber (log_max_docs validated)
          then
            match createCollection collectionName
                    (Some (default 0 (log_max_size validated) * 1024 * 1024,
                           default 0 (log_max_docs validated))) w with
            | (Throw err, w) => (Throw err, w)
            | (Normal _, w) =>
                (Normal tt,
                 debugWhen isDebugging
                   ("Created capped collection: " ++ collectionName) w)
            end
          else
            match createCollection collectionName None w with
            | (Throw err, w) => (Throw err, w)
            | (Normal _, w) =>
                (Normal tt,
                 debugWhen isDebugging
                   ("Created standard collection: " ++ collectionName) w)
            end
        else
          (Normal tt,
           debugWhen isDebugging
             ("Collection already exists: " ++ collectionName) w) in
      match created with
      | (Throw err, w) => (Throw err, w)
      | (Normal _, w) =>
          let indexed :=
            if negb (truthyBool (log_capped validated))
               && truthyNumber (log_expiration_days validated)
            then
              match listIndexes collectionName w with
              | Throw err => (Throw err, w)
              | Normal existing =>
                  let ttlExists := existsb isTimestampTtl existing in
                  if negb ttlExists then
                    let days := default 0 (log_expiration_days validated) in
                    match createIndex collectionName (timestampTtl days) w with
                    | (Throw err, w) => (Throw err, w)
                    | (Normal _, w) =>
                        (Normal tt,
                         debugWhen isDebugging
                           ("Created TTL index 'timestamp_ttl' for "
                            ++ toString days ++ " days") w)
                    end
                  else
                    (Normal tt,
                     debugWhen isDebugging
                       "TTL index 'timestamp_ttl' already exists" w)
              end
            else (Normal tt, w) in
          match indexed with
          | (Throw err, w) => (Throw err, w)
          | (Normal _, w) =>
              let logger :=
                mkLogger "info"
                  [ConsoleTransport;
                   MongoDBTransport (db_url validated) collectionName "info"] in
              let w :=
                if isDebugging
                then emit (LogInfo ("Logger created for " ++ dquote
                                    ++ db_url validated ++ dquote)) w
                else w in
              (Normal logger, w)
          end
      end
  end.

(** [createLog(tenant)]. *)
Definition createLog (tenant : Tenant) (w : World)
  : completion JsError Logger * World :=
  let '(validated, errors) := validate tenant in
  if (0 <? length errors)%nat
  then (Throw (Error (join ", " (map message errors))), w)
  else if truthyBool (log_capped validated)
          && truthyNumber (log_expiration_days validated)
  then (Throw conflictingRetention, w)
  else
    match createLogTry validated w with
    | (Normal logger, w) => (Normal logger, w)
    | (Throw err, w) =>
        let w :=
          if isDebugging
          then emit (LogError (message_of err)) (emit (Debug (message_of err)) w)
          else w in
        (Throw (Error (message_of err)), w)
    end.

End CreateLog.

(** A validator with the rules the schema of [createLog] declares: a required
    string is present with a length from 1 to 255, the expiration days, when
    present, are from 1 to 365. It instantiates [validate] in the examples. *)
Definition checkString (field : string) (v : option string) : list ValidationError :=
  match v with
  | None => [ {| message := field ++ " is required" |} ]
  | Some s =>
      if (1 <=? Z.of_nat (String.length s)) && (Z.of_nat (String.length s) <=? 255)
      then []
      else [ {| message := field ++ " has an invalid length" |} ]
  end.

Definition checkDays (v : option Z) : list ValidationError :=
  match v with
  | None => []
  | Some d =>
      if (1 <=? d) && (d <=? 365) then []
      else [ {| message := "log_expiration_days is out of range" |} ]
  end.

Definition schemaValidate (tenant : Tenant) : Validated * list ValidationError :=
  (mkValidated (default EmptyString (t_db_url tenant))
               (default EmptyString (t_log_collection_name tenant))
               (t_log_expiration_days tenant) (t_log_capped tenant)
               (t_log_max_size tenant) (t_log_max_docs tenant),
   (checkString "db_url" (t_db_url tenant)
    ++ checkString "log_collection_name" (t_log_collection_name tenant)
    ++ checkDays (t_log_expiration_days tenant))%list).

(** The collections after the index setup of a configuration that asks for
    expiry after [days] days and not for a capped collection, in closed
    form: a missing collection is created with the index; an existing one
    that has an index on [timestamp] named [timestamp_ttl] is left alone;
    otherwise the index is added, unless the store refuses it. *)
Definition refusesIndex (ix : Index) (c : Collection) : bool :=
  existsb (fun i => sameName i ix || sameKey i ix) (indexes c).

Definition afterTtlSetup (collectionName : string) (days : Z)
    (cs : gmap string Collection) : gmap string Collection :=
  match cs !! collectionName with
  | None =>
      <[collectionName := mkCollection None [idIndex; timestampTtl days]]> cs
  | Some c =>
      if existsb isTimestampTtl (indexes c) then cs
      else if refusesIndex (timestampTtl days) c then cs
      else <[collectionName :=
               mkCollection (capped c) (indexes c ++ [timestampTtl days])]> cs
  end.

(** Tenants and stores for the examples: a tenant that asks for a capped
    collection and for expiry, one that asks for expiry after 30 days only,
    and a reachable store without collections. *)
Definition cappedAndTtl : Tenant :=
  mkTenant (Some "mongodb://localhost/app") (Some "logs") (Some 30)
           (Some true) (Some 16) (Some 1000).

Definition ttlOnly : Tenant :=
  mkTenant (Some "mongodb://localhost/app") (Some "logs") (Some 30)
           None None None.

Definition emptyStore : World := mkWorld None ∅ [].

End CreateLog.

(** ** mongoLog.js *)

Module MongoLog.

(** A log entry as [_insertLog] builds it. *)
Record LogEntry : Type := mkLogEntry {
  level : string;
  message : string;
  meta : list (string * JsValue);
  createdAt : time
}.

(** The fields of a sink that the log methods read: the private [#collection]
    ([None] while [null]) and [_logToConsole]. *)
Record Sink : Type := mkSink {
  collection : option string;
  logToConsole : bool
}.

(** One call of a console method of the base class: the method and its
    arguments. *)
Record ConsoleCall : Type := mkConsoleCall {
  method : string;
  arguments : list JsValue
}.

(** The store and the console: the entries of the sink's collection, the
    error with which the store rejects an insert ([None] when it accepts),
    and the console calls made so far. *)
Record World : Type := mkWorld {
  entries : list LogEntry;
  insertFailure : option string;
  console : list ConsoleCall
}.

Definition notConnected : JsError :=
  Error "MongoLog is not connected to the database.".

(** [this.#collection.insertOne(entry)]. *)
Definition insertOne (entry : LogEntry) (w : World)
  : completion JsError unit * World :=
  match insertFailure w with
  | Some reason => (Throw (Error reason), w)
  | None => (Normal tt, mkWorld (entries w ++ [entry]) (insertFailure w) (console w))
  end.

(** [_insertLog(level, message, meta = {})]; [now] is [new Date()]. *)
Definition _insertLog (lvl msg : string) (mta : list (string * JsValue))
    (now : time) (this : Sink) (w : World) : completion JsError unit * World :=
  match collection this with
  | None => (Throw notConnected, w)
  | Some _ => insertOne (mkLogEntry lvl msg mta now) w
  end.

(** [super.method(...args)]: the base class writes to the console. *)
Definition superCall (mth : string) (args : list JsValue) (w : World) : World :=
  mkWorld (entries w) (insertFailure w) (console w ++ [mkConsoleCall mth args]).

(** The six methods [debug], [error], [info], [log], [trace] and [warn] have
    one body, up to the name of the level. *)
Inductive Method : Type := Mdebug | Merror | Minfo | Mlog | Mtrace | Mwarn.

Definition methodName (m : Method) : string :=
  match m with
  | Mdebug => "debug"
  | Merror => "error"
  | Minfo => "info"
  | Mlog => "log"
  | Mtrace => "trace"
  | Mwarn => "warn"
  end.

Definition write (m : Method) (args : list JsValue) (now : time)
    (this : Sink) (w : World) : completion JsError unit * World :=
  let msg := join " " (map JsString args) in
  match _insertLog (methodName m) msg [] now this w with
  | (Throw err, w) => (Throw err, w)
  | (Normal _, w) =>
      (Normal tt,
       if logToConsole this then superCall (methodName m) args w else w)
  end.

Definition debug := write Mdebug.
Definition error := write Merror.
Definition info := write Minfo.
Definition log := write Mlog.
Definition trace := write Mtrace.
Definition warn := write Mwarn.

(** [assert(expression, ...args)]; [expression] is the truthiness of the
    first argument. *)
Definition assert (expression : bool) (args : list JsValue) (now : time)
    (this : Sink) (w : World) : completion JsError unit * World :=
  if negb expression then
    let msg := join " " (map JsString args) in
    match _insertLog "assert" msg [] now this w with
    | (Throw err, w) => (Throw err, w)
    | (Normal _, w) =>
        (Normal tt,
         if logToConsole this
         then superCall "assert" (VBoolean expression :: args) w else w)
    end
  else
    (Normal tt,
     if logToConsole this
     then superCall "assert" (VBoolean expression :: args) w else w).

(** [table(...args)]: console only. *)
Definition table (args : list JsValue) (this : Sink) (w : World)
  : completion JsError unit * World :=
  (Normal tt, if logToConsole this then superCall "table" args w else w).

(** The property of a write call as the specification words it: the call
    does not raise, and with console mirroring enabled the entry reaches the
    console, whether or not the store accepted the insert. *)
Definition neverRaisesAlwaysMirrors (m : Method) (args : list JsValue)
    (now : time) (this : Sink) (w : World) : Prop :=
  is_normal (fst (write m args now this w)) = true /\
  (logToConsole this = true ->
   console (snd (write m args now this w))
   = (console w ++ [mkConsoleCall (methodName m) args])%list).

(** A connected sink with console mirroring, and a store that rejects
    inserts. *)
Definition mirroredSink : Sink := mkSink (Some "logs") true.

Definition failingStore : World := mkWorld [] (Some "connection lost") [].

End MongoLog.

(** ** createDB.js *)

Module CreateDB.

Record Tenant : Type := mkTenant { t_db_url : option string }.

Record Validated : Type := mkValidated { db_url : string }.

(** A collection of the database: its name and the error with which the
    server rejects a drop of it ([None] when the server drops it). *)
Record Collection : Type := mkCollection {
  collectionName : string;
  dropFailure : option string
}.

Inductive Event : Type :=
| Connected (url : string)
| ListenerAdded (event : string)
| DropCalled (collection : string)
| LogInfo (text : string)
| LogWarn (text : string)
| LogError (text : string).

(** The server behind [db_url]: whether it refuses the connection, whether it
    refuses to list the collections, the collections, and what the process
    did so far: connections, listeners, calls of [collection.drop()] and log
    lines. *)
Record World : Type := mkWorld {
  unreachable : option string;
  listFailure : option string;
  collections : list Collection;
  events : list Event
}.

Record Connection : Type := mkConnection { url : string }.

Definition emit (e : Event) (w : World) : World :=
  mkWorld (unreachable w) (listFailure w) (collections w) (events w ++ [e]).

(** The effect of a successful [collection.drop()] on the server. *)
Definition removeCollection (c : Collection) (w : World) : World :=
  mkWorld (unreachable w) (listFailure w)
    (filter (fun c' => collectionName c' ≠ collectionName c) (collections w))
    (events w).

(** One turn of the loop of [dropAllCollections]: the call of
    [collection.drop()], then the log line of the [try] or of the [catch]. *)
Definition dropOne (c : Collection) (w : World) : World :=
  let w := emit (DropCalled (collectionName c)) w in
  match dropFailure c with
  | None =>
      emit (LogInfo ("Dropped collection: " ++ collectionName c))
           (removeCollection c w)
  | Some reason =>
      if negb (String.eqb reason "ns not found")
         && negb (includes "a background operation is currently running" reason)
      then emit (LogWarn ("Failed to drop collection " ++ collectionName c
                          ++ ": " ++ reason)) w
      else w
  end.

(** [dropAllCollections(connection)]: the loop runs over the array that
    [connection.db.collections()] returned. *)
Definition dropAllCollections (w : World) : completion JsError unit * World :=
  match listFailure w with
  | Some reason => (Throw (Error reason), w)
  | None =>
      (Normal tt, fold_left (fun w c => dropOne c w) (collections w) w)
  end.

Section CreateDB.

(** [new Schema({ db_url: ... }).validate(tenant)] of zyx-schema. *)
Context (validate : Tenant -> Validated * list ValidationError).

(** [system.isDebugging] and [system.isTesting]. *)
Context (isDebugging isTesting : bool).

(** The body of the [try] block. *)
Definition createDBTry (validated : Validated) (w : World)
  : completion JsError Connection * World :=
  match unreachable w with
  | Some reason => (Throw (Error reason), w)
  | None =>
      let w := emit (Connected (db_url validated)) w in
      let connection := mkConnection (db_url validated) in
      let w :=
        if isDebugging
        then emit (LogInfo ("Database connected to " ++ dquote
                            ++ db_url validated ++ dquote)) w
        else w in
      let w := emit (ListenerAdded "disconnected") w in
      if isTesting then
        match dropAllCollections w with
        | (Throw err, w) => (Throw err, w)
        | (Normal _, w) => (Normal connection, w)
        end
      else (Normal connection, w)
  end.

(** [createDB(tenant)]. *)
Definition createDB (tenant : Tenant) (w : World)
  : completion JsError Connection * World :=
  let '(validated, errors) := validate tenant in
  if (0 <? length errors)%nat
  then (Throw (Error (join ", " (map message errors))), w)
  else
    match createDBTry validated w with
    | (Normal connection, w) => (Normal connection, w)
    | (Throw err, w) =>
        let w :=
          if isDebugging
          then emit (LogError ("Database connection error: ("
                               ++ db_url validated ++ ") " ++ message_of err)) w
          else w in
        (Throw (Error ("Failed to connect to database: " ++ message_of err)), w)
    end.

End CreateDB.

(** The names of the collections of [cs] that the server drops when asked. *)
Definition droppedNames (cs : list Collection) : list string :=
  map collectionName (filter (fun c => dropFailure c = None) cs).

(** What one turn of the loop adds to the events, and the collections on
    which a list of events calls [drop]. *)
Definition dropOneEvents (c : Collection) : list Event :=
  DropCalled (collectionName c)
  :: match dropFailure c with
     | None => [LogInfo ("Dropped collection: " ++ collectionName c)]
     | Some reason =>
         if negb (String.eqb reason "ns not found")
            && negb (includes "a background operation is currently running"
                              reason)
         then [LogWarn ("Failed to drop collection " ++ collectionName c
                        ++ ": " ++ reason)]
         else []
     end.

Definition dropCalls (es : list Event) : list string :=
  flat_map (fun e => match e with DropCalled c => [c] | _ => [] end) es.

(** The events of a successful connection, before any drop. *)
Definition connectedEvents (isDebugging : bool) (url : string) : list Event :=
  ((Connected url
    :: (if isDebugging
        then [LogInfo ("Database connected to " ++ dquote ++ url ++ dquote)]
        else []))
   ++ [ListenerAdded "disconnected"])%list.

(** A validator with the rule the schema of [createDB] declares: [db_url] is
    present with a length from 1 to 255. *)
Definition schemaValidate (tenant : Tenant) : Validated * list ValidationError :=
  (mkValidated (default EmptyString (t_db_url tenant)),
   CreateLog.checkString "db_url" (t_db_url tenant)).

(** A tenant and a server with two collections for the examples. *)
Definition localTenant : Tenant := mkTenant (Some "mongodb://localhost/test").

Definition twoCollections : World :=
  mkWorld None None [mkCollection "users" None; mkCollection "logs" None] [].

End CreateDB.

(** ** mongoLog.js: connection life cycle *)

Module MongoLogConnection.

(** [s.split(separator)] for a separator of one character: the pieces
    between the occurrences of the separator, at least one piece. *)
Fixpoint split (separator : ascii) (s : string) : list string :=
  match s with
  | EmptyString => [EmptyString]
  | String c rest =>
      if Ascii.eqb c separator then EmptyString :: split separator rest
      else
        match split separator rest with
        | piece :: pieces => String c piece :: pieces
        | [] => [String c EmptyString]
        end
  end.

(** The character occurs in the string. *)
Fixpoint occurs (c : ascii) (s : string) : bool :=
  match s with
  | EmptyString => false
  | String c' rest => Ascii.eqb c' c || occurs c rest
  end.

(** [MongoLog._parseDbName(uri)]. On [undefined] the call of [uri.split]
    raises, and the [catch] returns [null]. *)
Definition _parseDbName (uri : option string) : option string :=
  match uri with
  | None => None
  | Some uri =>
      let withoutParams := List.hd EmptyString (split "?" uri) in
      let parts := split "/" withoutParams in
      if (3 <? length parts)%nat then parts !! 3%nat else None
  end.

(** A [MongoClient]: the one the tenant shares, or one made from a URL. *)
Inductive Client : Type :=
| SharedClient
| OwnClient (url : string).

(** The state of a [MongoLog] instance. [config] is [this.config] ([None]
    while [undefined]) reduced to its [db_url]; [sharedClient] is
    [this.tenant?.db?.connection] when that is a [MongoClient];
    [baseConnection] is what was last handed to [setConnection] of the base
    class. The other fields are the private and underscore fields of the
    class. *)
Record Instance : Type := mkInstance {
  config : option (option string);
  sharedClient : option Client;
  mongoClient : option Client;
  db : option string;
  collection : option string;
  ownsConnection : bool;
  logToConsole : bool;
  collectionName : string;
  expirationDays : Z;
  baseConnection : option string
}.

Definition set_client (c : option Client) (owns : bool) (i : Instance) : Instance :=
  mkInstance (config i) (sharedClient i) c (db i) (collection i) owns
    (logToConsole i) (collectionName i) (expirationDays i) (baseConnection i).

Definition set_target (d c : option string) (i : Instance) : Instance :=
  mkInstance (config i) (sharedClient i) (mongoClient i) d c (ownsConnection i)
    (logToConsole i) (collectionName i) (expirationDays i) (baseConnection i).

Definition set_baseConnection (c : option string) (i : Instance) : Instance :=
  mkInstance (config i) (sharedClient i) (mongoClient i) (db i) (collection i)
    (ownsConnection i) (logToConsole i) (collectionName i) (expirationDays i) c.

(** The fields the log methods read. *)
Definition toSink (i : Instance) : MongoLog.Sink :=
  MongoLog.mkSink (collection i) (logToConsole i).

Inductive Event : Type :=
| ClientCreated (url : string)
| ConnectCalled (client : Client)
| IndexRequested (database collection field : string) (expireAfterSeconds : Z)
| ConsoleWarn (arguments : list string)
| CloseCalled (client : Client).

(** The server: the errors with which it rejects [client.connect()],
    [createIndex] and [client.close()] ([None] when it accepts), and what the
    instance did so far. *)
Record Server : Type := mkServer {
  connectFailure : option string;
  indexFailure : option string;
  closeFailure : option string;
  events : list Event
}.

Definition emit (e : Event) (s : Server) : Server :=
  mkServer (connectFailure s) (indexFailure s) (closeFailure s) (events s ++ [e]).

(** The clients on which a list of events calls [connect], and those on which
    it calls [close]. *)
Definition connectCalls (es : list Event) : list Client :=
  flat_map (fun e => match e with ConnectCalled c => [c] | _ => [] end) es.

Definition closeCalls (es : list Event) : list Client :=
  flat_map (fun e => match e with CloseCalled c => [c] | _ => [] end) es.

Definition missingUrl : JsError :=
  Error "Missing MongoDB connection URL (db_url) in config.".

(** A string that is not empty, as a truthy value. *)
Definition truthyString (s : option string) : option string :=
  match s with
  | Some (String c rest) => Some (String c rest)
  | _ => None
  end.

(** [connect()], first part: the client. *)
Definition connectClient (this : Instance) (s : Server)
  : completion JsError unit * (Instance * Server) :=
  let this :=
    match sharedClient this with
    | Some shared => set_client (Some shared) false this
    | None => this
    end in
  match mongoClient this with
  | Some _ => (Normal tt, (this, s))
  | None =>
      match truthyString (mjoin (config this)) with
      | None => (Throw missingUrl, (this, s))
      | Some url =>
          let this := set_client (Some (OwnClient url)) (ownsConnection this) this in
          let s := emit (ConnectCalled (OwnClient url)) (emit (ClientCreated url) s) in
          match connectFailure s with
          | Some reason => (Throw (Error reason), (this, s))
          | None => (Normal tt, (set_client (mongoClient this) true this, s))
          end
      end
  end.

(** [connect()]. *)
Definition connect (this : Instance) (s : Server)
  : completion JsError unit * (Instance * Server) :=
  match connectClient this s with
  | (Throw err, state) => (Throw err, state)
  | (Normal _, (this, s)) =>
      match config this with
      | None =>
          (Throw (TypeError
             "Cannot read properties of undefined (reading 'db_url')"), (this, s))
      | Some db_url =>
          let dbName :=
            default "default_db" (truthyString (_parseDbName db_url)) in
          let this := set_target (Some dbName) (Some (collectionName this)) this in
          let s :=
            if 0 <? expirationDays this then
              let s := emit (IndexRequested dbName (collectionName this) "createdAt"
                               (expirationDays this * 86400)) s in
              match indexFailure s with
              | Some reason =>
                  if logToConsole this
                  then emit (ConsoleWarn
                               ["Failed to create TTL index on logs collection:";
                                reason]) s
                  else s
              | None => s
              end
            else s in
          (Normal tt, (set_baseConnection (collection this) this, s))
      end
  end.

(** [disconnect()]. *)
Definition disconnect (this : Instance) (s : Server)
  : completion JsError unit * (Instance * Server) :=
  let closed :=
    match mongoClient this with
    | Some client =>
        if ownsConnection this then
          let s := emit (CloseCalled client) s in
          match closeFailure s with
          | Some reason => (Throw (Error reason), s)
          | None => (Normal tt, s)
          end
        else (Normal tt, s)
    | None => (Normal tt, s)
    end in
  match closed with
  | (Throw err, s) => (Throw err, (this, s))
  | (Normal _, s) => (Normal tt, (set_target None None (set_client None (ownsConnection this) this), s))
  end.

(** The server with another answer to [createIndex]. *)
Definition withIndexFailure (failure : option string) (s : Server) : Server :=
  mkServer (connectFailure s) failure (closeFailure s) (events s).

(** The console warnings among a list of events. *)
Definition consoleWarnings (es : list Event) : list (list string) :=
  flat_map (fun e => match e with ConsoleWarn args => [args] | _ => [] end) es.

(** The index requests among a list of events: the field and the seconds. *)
Definition indexRequests (es : list Event) : list (string * Z) :=
  flat_map (fun e => match e with
                     | IndexRequested _ _ field seconds => [(field, seconds)]
                     | _ => []
                     end) es.

(** An instance as the constructor leaves it, for a configuration with the
    given [db_url], without a shared client. *)
Definition fresh (db_url : option string) (days : Z) : Instance :=
  mkInstance (Some db_url) None None None None false true "logs" days None.

Definition acceptingServer : Server := mkServer None None None [].

End MongoLogConnection.

(** ** mongoDatabase.js: connection life cycle *)

Module MongoDatabaseService.
Import MongoDatabase.

Section Service.
Context {Model Connection : Type}.

(** [mongoose.createConnection(uri, options)], awaited, and
    [connection.close()]. *)
Context (createConnection : string -> completion JsError Connection).
Context (closeConnection : Connection -> completion JsError unit).

(** A [MongoDatabase] with what it inherits: the registry and the private
    connection of [Database], [config.db_url] ([None] while [undefined]), the
    connection last handed to [setConnection] of the base class ([None] for
    [null]), and the connections [close()] was called on so far. *)
Record Service : Type := mkService {
  database : Database (Model := Model) (Connection := Connection);
  db_url : option string;
  baseConnection : option Connection;
  closeCalls : list Connection
}.

Definition missingUri : JsError :=
  Error "Missing 'mongo_uri' in tenant database config.".

(** [connect()]. An empty [db_url] is falsy, like a missing one. *)
Definition connect (this : Service) : completion JsError unit * Service :=
  match db_url this with
  | Some (String c rest) =>
      match createConnection (String c rest) with
      | Throw err => (Throw err, this)
      | Normal connection =>
          (Normal tt,
           mkService (mkDatabase (Some connection) (models (database this)))
                     (db_url this) (Some connection) (closeCalls this))
      end
  | _ => (Throw missingUri, this)
  end.

(** [disconnect()]. *)
Definition disconnect (this : Service) : completion JsError unit * Service :=
  match mongooseConnection (database this) with
  | Some connection =>
      let this :=
        mkService (database this) (db_url this) (baseConnection this)
                  (closeCalls this ++ [connection]) in
      match closeConnection connection with
      | Throw err => (Throw err, this)
      | Normal _ =>
          (Normal tt,
           mkService (database this) (db_url this) None (closeCalls this))
      end
  | None => (Normal tt, this)
  end.

(** The getter [connection]. *)
Definition connection (this : Service) : option Connection :=
  mongooseConnection (database this).

End Service.

(** A service for the examples: connections are their URLs. *)
Definition urlConnection (uri : string) : completion JsError string := Normal uri.

Definition closeAlways (_ : string) : completion JsError unit := Normal tt.

Definition localService : Service (Model := string * string) (Connection := string) :=
  mkService (mkDatabase None ∅) (Some "mongodb://localhost/app") None [].

End MongoDatabaseService.

(** ** closeDB.js *)

Module CloseDB.

(** The argument of [closeDB]: a falsy value, a value without a [close]
    function, or a connection with its [name] and the error with which its
    [close()] rejects ([None] when it resolves). *)
Inductive Argument : Type :=
| Falsy
| NotClosable
| Closable (name : string) (closeFailure : option string).

Inductive Event : Type :=
| CloseCalled (name : string)
| LogInfo (text : string)
| LogWarn (text : string)
| LogError (text : string).

(** The body of the [try] block. *)
Definition closeDBTry (name : string) (closeFailure : option string)
    (events : list Event) : completion JsError unit * list Event :=
  let events := (events ++ [CloseCalled name])%list in
  match closeFailure with
  | Some reason => (Throw (Error reason), events)
  | None =>
      (Normal tt,
       (events ++ [LogInfo ("Database connection " ++ dquote ++ name ++ dquote
                            ++ " closed.")])%list)
  end.

(** [closeDB(connection)]. *)
Definition closeDB (connection : Argument) (events : list Event)
  : completion JsError unit * list Event :=
  match connection with
  | Falsy | NotClosable =>
      (Normal tt,
       (events ++ [LogWarn "closeDB: Invalid or missing connection instance."])%list)
  | Closable name closeFailure =>
      match closeDBTry name closeFailure events with
      | (Normal _, events) => (Normal tt, events)
      | (Throw err, events) =>
          (Normal tt,
           (events ++ [LogError ("Error closing database connection " ++ dquote
                                 ++ name ++ dquote ++ ": " ++ message_of err)])%list)
      end
  end.

Definition closeCalls (es : list Event) : list string :=
  flat_map (fun e => match e with CloseCalled n => [n] | _ => [] end) es.

Definition logLines (es : list Event) : list Event :=
  List.filter (fun e => match e with CloseCalled _ => false | _ => true end) es.

End CloseDB.

(** ** closeLog.js *)

Module CloseLog.
Import CreateLog.

Inductive Event : Type :=
| CloseCalled (transport : Transport)
| LogInfo (text : string)
| LogWarn (text : string)
| LogError (text : string).

(** [transport instanceof winstonMongo.MongoDB]. *)
Definition isMongoDB (t : Transport) : bool :=
  match t with
  | MongoDBTransport _ _ _ => true
  | ConsoleTransport => false
  end.

(** What a transport's [close] does with the function it is given: it never
    calls it, or it calls it, with an error or without one. The [close()] of
    winston-mongodb takes no argument, so it never calls it. *)
Inductive Callback : Type :=
| NeverCalled
| Called (err : option string).

(** A promise in the end: fulfilled, rejected, or never settled. *)
Inductive Settlement : Type :=
| Fulfilled
| Rejected (reason : string)
| Pending.

Definition isCalled (c : Callback) : bool :=
  match c with
  | Called _ => true
  | NeverCalled => false
  end.

(** The first callback that reports an error; the transports call back in
    their order. *)
Fixpoint firstFailure (outcomes : list Callback) : option string :=
  match outcomes with
  | [] => None
  | Called (Some reason) :: _ => Some reason
  | _ :: rest => firstFailure rest
  end.

(** [Promise.all(closePromises)] over promises that [reject(err)] or
    [resolve()] from the callback: rejected as soon as one promise is,
    fulfilled once all are, and pending for ever otherwise. *)
Definition promiseAll (outcomes : list Callback) : Settlement :=
  match firstFailure outcomes with
  | Some reason => Rejected reason
  | None => if forallb isCalled outcomes then Fulfilled else Pending
  end.

Section CloseLog.

(** What [transport.close(callback)] does with the callback, and whether the
    transport has a [close] function. *)
Context (closeCallback : Transport -> Callback).
Context (hasClose : Transport -> bool).

(** The loop: [close] is called on each MongoDB transport that has it when
    its promise is built; the result lists the outcomes in the order of the
    transports. *)
Definition closeTransports (ts : list Transport) (events : list Event)
  : list Callback * list Event :=
  fold_left
    (fun acc t =>
       if isMongoDB t && hasClose t
       then ((fst acc ++ [closeCallback t])%list,
             (snd acc ++ [CloseCalled t])%list)
       else acc)
    ts ([], events).

(** The body of the [try] block; [None] when the awaited promise never
    settles, so that the function never continues. *)
Definition closeLogTry (logger : Logger) (events : list Event)
  : option (completion JsError unit) * list Event :=
  let '(outcomes, events) := closeTransports (transports logger) events in
  match promiseAll outcomes with
  | Rejected reason => (Some (Throw (Error reason)), events)
  | Fulfilled =>
      (Some (Normal tt),
       (events ++ [LogInfo "MongoDB logger transport(s) closed."])%list)
  | Pending => (None, events)
  end.

(** [closeLog(logger)]; the argument [None] is a logger that is falsy or has
    no [close] function, the result [None] a promise that never settles. *)
Definition closeLog (logger : option Logger) (events : list Event)
  : option (completion JsError unit) * list Event :=
  match logger with
  | None =>
      (Some (Normal tt),
       (events ++ [LogWarn "closeLog: Invalid or missing logger instance."])%list)
  | Some logger =>
      match closeLogTry logger events with
      | (Some (Normal _), events) => (Some (Normal tt), events)
      | (Some (Throw err), events) =>
          (Some (Normal tt),
           (events ++ [LogError ("Error closing MongoDB logger: "
                                 ++ message_of err)])%list)
      | (None, events) => (None, events)
      end
  end.

End CloseLog.

Definition closeCalls (es : list Event) : list Transport :=
  flat_map (fun e => match e with CloseCalled t => [t] | _ => [] end) es.

(** A [close] that ignores the function it is given. *)
Definition ignoresCallback (t : Transport) : Callback := NeverCalled.

End CloseLog.

(** ** Derived notions for createLog.js and createDB.js *)

Module CreateLogFrame.
Import CreateLog.

(** The ways a run of [createLog] may change the collections: every
    collection other than the log collection is as before, and a log
    collection that existed keeps its creation options and its indexes,
    possibly followed by new ones. *)
Definition grows (collectionName : string)
    (before after : gmap string Collection) : Prop :=
  (forall other, other <> collectionName -> after !! other = before !! other) /\
  (forall c, before !! collectionName = Some c ->
             exists c', after !! collectionName = Some c' /\
                        capped c' = capped c /\
                        indexes c `prefix_of` indexes c').

(** The tests of [createLog] on the validated configuration. *)
Definition conflicting (v : Validated) : bool :=
  truthyBool (log_capped v) && truthyNumber (log_expiration_days v).

Definition ttlRequested (v : Validated) : bool :=
  negb (truthyBool (log_capped v)) && truthyNumber (log_expiration_days v).

Definition cappedRequested (v : Validated) : bool :=
  truthyBool (log_capped v) && truthyNumber (log_max_size v)
  && truthyNumber (log_max_docs v).

(** The index [createLog] asks for is wanted, missing and refused by the
    store. *)
Definition indexRefused (v : Validated) (w : World) : bool :=
  ttlRequested v &&
  match collections w !! log_collection_name v with
  | Some c =>
      negb (existsb isTimestampTtl (indexes c))
      && refusesIndex (timestampTtl (default 0 (log_expiration_days v))) c
  | None => false
  end.

(** A tenant that asks for a capped collection without its limits. *)
Definition cappedWithoutLimits : Tenant :=
  mkTenant (Some "mongodb://localhost/app") (Some "logs") None
           (Some true) None None.

(** A store whose log collection has an index named [timestamp_ttl] on
    another field. *)
Definition otherTtlStore : World :=
  mkWorld None
    {[ "logs" := mkCollection None
                   [idIndex; mkIndex [("createdAt", 1)] "timestamp_ttl" (Some 60)] ]}
    [].

End CreateLogFrame.

Module CreateDBFrame.
Import CreateDB.

(** The failures of a drop that the loop of [dropAllCollections] passes over
    without a warning. *)
Definition benign (reason : string) : bool :=
  String.eqb reason "ns not found"
  || includes "a background operation is currently running" reason.

(** The warning the loop logs for a collection, if any. *)
Definition dropWarning (c : Collection) : list string :=
  match dropFailure c with
  | Some reason =>
      if benign reason then []
      else ["Failed to drop collection " ++ collectionName c ++ ": " ++ reason]
  | None => []
  end.

(** The warnings among a list of events. *)
Definition warnings (es : list Event) : list string :=
  flat_map (fun e => match e with LogWarn t => [t] | _ => [] end) es.

(** A server that cannot list its collections, and one whose collections
    resist a drop for three different reasons. *)
Definition unlistable : World :=
  mkWorld None (Some "not authorized") [mkCollection "users" None] [].

Definition stubborn : World :=
  mkWorld None None
    [mkCollection "a" (Some "ns not found");
     mkCollection "b" (Some "cannot drop: a background operation is currently running on b");
     mkCollection "c" (Some "not authorized");
     mkCollection "d" None]
    [].

End CreateDBFrame.

(** ** Runs of failed attempts (userSchema.js) *)

Module AccountRuns.
Import UserSchema.

(** Consecutive calls of [incrementLoginAttempts], at the given times. *)
Definition failedAttempts (times : list time) (this : User) : User :=
  fold_left (fun doc now => incrementLoginAttempts now doc) times this.

(** The fields of a document other than [passwordHash]. *)
Definition otherFields (u : User)
  : string * string * string * string * bool * option string * option time
    * Z * option time * option string * option time * option time * bool :=
  (email u, role u, firstname u, lastname u, isVerified u, verifyCode u,
   verifyCodeExpiresAt u, failedLoginAttempts u, lockUntil u, resetCode u,
   resetCodeExpiresAt u, lastLoginAt u, passwordHashModified u).

End AccountRuns.

(** * Properties *)

(** ** Account security (userSchema.js) *)

Section AccountProperties.
Import UserSchema AccountSecurity.
Context `{B : Bcrypt}.

Lemma isAccountLocked_iff (now : time) (this : User) :
  isAccountLocked now this = true <->
  exists until, lockUntil this = Some until /\ now < until.
Proof.
  unfold isAccountLocked. destruct (lockUntil this) as [until|].
  - rewrite Z.ltb_lt. split.
    + intros Hlt. exists until. split; [reflexivity | exact Hlt].
    + intros (u & Hu & Hlt). injection Hu as ->. exact Hlt.
  - split; [discriminate | intros (u & Hu & _); discriminate].
Qed.

Lemma incrementLoginAttempts_count (now : time) (this : User) :
  failedLoginAttempts (incrementLoginAttempts now this)
  = failedLoginAttempts this + 1.
Proof.
  unfold incrementLoginAttempts. cbn.
  destruct (MAX_FAILED_ATTEMPTS <=? failedLoginAttempts this + 1); reflexivity.
Qed.

Lemma incrementLoginAttempts_lock (now : time) (this : User) :
  lockUntil (incrementLoginAttempts now this)
  = if 5 <=? failedLoginAttempts this + 1
    then Some (now + 900000)
    else lockUntil this.
Proof.
  unfold incrementLoginAttempts, MAX_FAILED_ATTEMPTS. cbn.
  destruct (5 <=? failedLoginAttempts this + 1); reflexivity.
Qed.

(** C1. An account with four failed attempts and no active lock: one more
    call of [incrementLoginAttempts] at time [now] makes the counter 5 and
    sets [lockUntil] to [now] plus 15 minutes; at every time before
    [lockUntil] the account is locked and [authenticate] fails with
    [AccountLockedError] whatever the candidate password, the correct one
    included, leaving the document as it is; from [lockUntil] on the account
    is no longer locked. *)
Theorem fifth_failure_locks_account (now : time) (this : User) :
  failedLoginAttempts this = 4 ->
  isAccountLocked now this = false ->
  let locked := incrementLoginAttempts now this in
  failedLoginAttempts locked = 5 /\
  lockUntil locked = Some (now + 15 * 60 * 1000) /\
  (forall later candidate,
      later < now + 15 * 60 * 1000 ->
      isAccountLocked later locked = true /\
      authenticate later candidate locked = (Throw AccountLockedError, locked)) /\
  (forall later,
      now + 15 * 60 * 1000 <= later -> isAccountLocked later locked = false).
Proof.
  intros Hfour _ locked.
  assert (Hlock : lockUntil locked = Some (now + 900000)).
  { unfold locked. rewrite incrementLoginAttempts_lock, Hfour. reflexivity. }
  assert (Hcount : failedLoginAttempts locked = 5).
  { unfold locked. rewrite incrementLoginAttempts_count, Hfour. reflexivity. }
  change (15 * 60 * 1000) with 900000.
  repeat split; try assumption.
  - apply isAccountLocked_iff. exists (now + 900000). split; assumption.
  - unfold authenticate.
    replace (isAccountLocked later locked) with true; [reflexivity |].
    symmetry. apply isAccountLocked_iff. eauto.
  - intros later Hlater. unfold isAccountLocked. rewrite Hlock.
    apply Z.ltb_ge. exact Hlater.
Qed.

(** *** The attempt counter over sequences of calls *)

Lemma runOp_counter (call : time * AccountOp) (this : User) :
  failedLoginAttempts (runOp call this)
  = if isResetLock (snd call) then 0
    else if isIncrement (snd call) then failedLoginAttempts this + 1
    else failedLoginAttempts this.
Proof.
  destruct call as [now op]. destruct op; cbn; try reflexivity.
  - apply incrementLoginAttempts_count.
  - unfold preSave. destruct (negb (passwordHashModified this)); [reflexivity |].
    destruct (bcrypt_genSalt SALT_ROUNDS entropy) as [salt|]; [| reflexivity].
    destruct (bcrypt_hash (passwordHash this) salt); reflexivity.
Qed.

Lemma runOps_counter_without_reset (calls : list (time * AccountOp)) :
  forall this,
    forallb (fun call => negb (isResetLock (snd call))) calls = true ->
    failedLoginAttempts (runOps calls this)
    = failedLoginAttempts this + increments calls.
Proof.
  unfold runOps, increments.
  induction calls as [|call calls IH]; intros this Hno; cbn.
  - lia.
  - cbn in Hno. apply andb_true_iff in Hno as [Hcall Hrest].
    rewrite IH by exact Hrest. rewrite runOp_counter.
    apply negb_true_iff in Hcall. rewrite Hcall.
    destruct (isIncrement (snd call)); cbn [List.length]; lia.
Qed.

(** C7. From any document: a call of [resetLock] sets the counter to zero
    and clears [lockUntil]; a call of [incrementLoginAttempts] (a failed
    password) raises the counter by exactly one; every call other than
    [resetLock] leaves the counter where it was or higher; and over any
    sequence of calls without a [resetLock] the counter ends at its start
    value plus the number of failed-password calls, so it never decreases. *)
Theorem counter_monotone_except_reset :
  (forall this, failedLoginAttempts (resetLock this) = 0
                /\ lockUntil (resetLock this) = None) /\
  (forall now this,
      failedLoginAttempts (incrementLoginAttempts now this)
      = failedLoginAttempts this + 1) /\
  (forall call this,
      isResetLock (snd call) = false ->
      failedLoginAttempts this <= failedLoginAttempts (runOp call this)) /\
  (forall calls this,
      forallb (fun call => negb (isResetLock (snd call))) calls = true ->
      failedLoginAttempts (runOps calls this)
      = failedLoginAttempts this + increments calls
      /\ failedLoginAttempts this <= failedLoginAttempts (runOps calls this)).
Proof.
  split; [| split; [| split]].
  - intros this. split; reflexivity.
  - apply incrementLoginAttempts_count.
  - intros call this Hno. rewrite runOp_counter, Hno.
    destruct (isIncrement (snd call)); lia.
  - intros calls this Hno.
    pose proof (runOps_counter_without_reset calls this Hno) as Heq.
    split; [exact Heq |]. rewrite Heq. unfold increments. lia.
Qed.

End AccountProperties.

Section AccountExamples.
Import UserSchema AccountSecurity.

Lemma fifth_failure_locks_account_witness :
  failedLoginAttempts dave = 4 /\
  isAccountLocked 1000 dave = false /\
  failedLoginAttempts (incrementLoginAttempts 1000 dave) = 5 /\
  lockUntil (incrementLoginAttempts 1000 dave) = Some 901000 /\
  verifyPassword "secret" (incrementLoginAttempts 1000 dave) = true /\
  authenticate 2000 "secret" (incrementLoginAttempts 1000 dave)
  = (Throw AccountLockedError, incrementLoginAttempts 1000 dave).
Proof.
  split; [reflexivity | split; [reflexivity |]].
  destruct (fifth_failure_locks_account (B := standInBcrypt) 1000 dave
              eq_refl eq_refl) as (Hcount & Hlock & Hlocked & _).
  split; [exact Hcount | split; [exact Hlock | split; [reflexivity |]]].
  apply (Hlocked 2000 "secret"). reflexivity.
Defined.

End AccountExamples.

(** ** Number arithmetic *)

Section NumberProperties.
#[local] Open Scope Q_scope.

Lemma two_power_pos (e : Z) : 0 < 2 ^ e.
Proof. apply Qpower_0_lt. reflexivity. Qed.

Lemma two_power_succ (e : Z) : 2 ^ (e + 1) == 2 * 2 ^ e.
Proof. rewrite Qpower_plus by discriminate. change (2 ^ 1) with 2. ring. Qed.

Lemma floorLog2_spec (x : Q) :
  0 < x -> 2 ^ floorLog2 x <= x /\ x < 2 ^ (floorLog2 x + 1).
Proof.
  intros Hpos. unfold floorLog2.
  set (l := (Z.log2 (Qnum x) - Z.log2 (Zpos (Qden x)))%Z).
  assert (Hbounds : 2 ^ (l - 1) <= x /\ x < 2 ^ (l + 1)).
  { destruct x as [n d]. cbn [Qnum Qden] in *.
    assert (Hn : (0 < n)%Z) by (unfold Qlt in Hpos; cbn in Hpos; lia).
    pose proof (Z.log2_spec n Hn) as [Hnl Hnu].
    pose proof (Z.log2_spec (Zpos d) (Pos2Z.is_pos d)) as [Hdl Hdu].
    pose proof (Z.log2_nonneg n) as Ha. pose proof (Z.log2_nonneg (Zpos d)) as Hb.
    set (a := Z.log2 n) in *. set (b := Z.log2 (Zpos d)) in *.
    assert (Ea : inject_Z (2 ^ a) == 2 ^ a) by (apply Zpower_Qpower; lia).
    assert (Ea' : inject_Z (2 ^ Z.succ a) == 2 ^ (a + 1)) by (apply Zpower_Qpower; lia).
    assert (Eb : inject_Z (2 ^ b) == 2 ^ b) by (apply Zpower_Qpower; lia).
    assert (Eb' : inject_Z (2 ^ Z.succ b) == 2 ^ (b + 1)) by (apply Zpower_Qpower; lia).
    assert (El : 2 ^ a == 2 ^ (l - 1) * 2 ^ (b + 1)).
    { rewrite <- Qpower_plus by discriminate. replace (l - 1 + (b + 1))%Z with a by (subst l; lia). reflexivity. }
    assert (Eu : 2 ^ (a + 1) == 2 ^ (l + 1) * 2 ^ b).
    { rewrite <- Qpower_plus by discriminate. replace (l + 1 + b)%Z with (a + 1)%Z by (subst l; lia). reflexivity. }
    rewrite (Qmake_Qdiv n d). split.
    - apply Qle_shift_div_l; [reflexivity|].
      apply Qle_trans with (2 ^ a).
      + rewrite El. apply Qmult_le_l; [apply two_power_pos|].
        rewrite <- Eb'. rewrite <- Zle_Qle. lia.
      + rewrite <- Ea. rewrite <- Zle_Qle. exact Hnl.
    - apply Qlt_shift_div_r; [reflexivity|].
      apply Qlt_le_trans with (2 ^ (a + 1)).
      + rewrite <- Ea'. rewrite <- Zlt_Qlt. exact Hnu.
      + rewrite Eu. apply Qmult_le_l; [apply two_power_pos|].
        rewrite <- Eb. rewrite <- Zle_Qle. exact Hdl. }
  destruct Hbounds as [Hlower Hupper].
  destruct (Qle_bool (2 ^ l) x) eqn:Htest.
  - split; [apply Qle_bool_iff; exact Htest | exact Hupper].
  - split; [exact Hlower|].
    replace (l - 1 + 1)%Z with l by lia.
    apply Qnot_le_lt. intros Hle. apply Qle_bool_iff in Hle. congruence.
Qed.

Lemma floorLog2_unique (x : Q) (l : Z) :
  2 ^ l <= x -> x < 2 ^ (l + 1) -> floorLog2 x = l.
Proof.
  intros Hlo Hhi.
  assert (Hpos : 0 < x) by (eapply Qlt_le_trans; [apply (two_power_pos l) | exact Hlo]).
  destruct (floorLog2_spec x Hpos) as [Hlo' Hhi'].
  assert (H1 : (floorLog2 x < l + 1)%Z).
  { apply Qpower_lt_compat_l_inv with (q := 2); [|reflexivity].
    eapply Qle_lt_trans; [exact Hlo' | exact Hhi]. }
  assert (H2 : (l < floorLog2 x + 1)%Z).
  { apply Qpower_lt_compat_l_inv with (q := 2); [|reflexivity].
    eapply Qle_lt_trans; [exact Hlo | exact Hhi']. }
  lia.
Qed.

Lemma floorLog2_monotone (x y : Q) :
  0 < x -> x <= y -> (floorLog2 x <= floorLog2 y)%Z.
Proof.
  intros Hpos Hle.
  assert (Hposy : 0 < y) by (eapply Qlt_le_trans; eassumption).
  destruct (floorLog2_spec x Hpos) as [Hlo _].
  destruct (floorLog2_spec y Hposy) as [_ Hhi].
  assert (H : (floorLog2 x < floorLog2 y + 1)%Z).
  { apply Qpower_lt_compat_l_inv with (q := 2); [|reflexivity].
    eapply Qle_lt_trans; [exact Hlo|]. eapply Qle_lt_trans; [exact Hle | exact Hhi]. }
  lia.
Qed.

Lemma roundHalfEven_floor (q : Q) :
  (Qfloor q <= roundHalfEven q <= Qfloor q + 1)%Z.
Proof.
  unfold roundHalfEven. destruct (q - inject_Z (Qfloor q) ?= 1 # 2); [destruct (Z.even _)| |]; lia.
Qed.

Lemma roundHalfEven_monotone (p q : Q) :
  p <= q -> (roundHalfEven p <= roundHalfEven q)%Z.
Proof.
  intros Hle. pose proof (Qfloor_resp_le p q Hle) as Hfloor.
  pose proof (roundHalfEven_floor p) as Hp. pose proof (roundHalfEven_floor q) as Hq.
  destruct (Z.eq_dec (Qfloor p) (Qfloor q)) as [Heq | Hne]; [|lia].
  unfold roundHalfEven. rewrite <- Heq.
  destruct (p - inject_Z (Qfloor p) ?= 1 # 2) eqn:Hcp;
    destruct (q - inject_Z (Qfloor p) ?= 1 # 2) eqn:Hcq;
    try (destruct (Z.even (Qfloor p)); lia); try lia; exfalso.
  - apply Qeq_alt in Hcp. apply Qlt_alt in Hcq.
    apply (Qlt_irrefl (1 # 2)). rewrite <- Hcp at 1.
    eapply Qle_lt_trans; [|exact Hcq].
    apply Qplus_le_l with (z := inject_Z (Qfloor p)). ring_simplify. exact Hle.
  - apply Qgt_alt in Hcp. apply Qeq_alt in Hcq.
    apply (Qlt_irrefl (1 # 2)). rewrite <- Hcq at 2.
    eapply Qlt_le_trans; [exact Hcp|].
    apply Qplus_le_l with (z := inject_Z (Qfloor p)). ring_simplify. exact Hle.
  - apply Qgt_alt in Hcp. apply Qlt_alt in Hcq.
    apply (Qlt_irrefl (1 # 2)).
    eapply Qlt_trans; [exact Hcp|].
    eapply Qle_lt_trans; [|exact Hcq].
    apply Qplus_le_l with (z := inject_Z (Qfloor p)). ring_simplify. exact Hle.
Qed.

Lemma roundHalfEven_integer (k : Z) : roundHalfEven (inject_Z k) = k.
Proof.
  unfold roundHalfEven. rewrite Qfloor_Z.
  assert (H : (inject_Z k - inject_Z k ?= 1 # 2) = Lt).
  { rewrite <- Qlt_alt. ring_simplify. reflexivity. }
  rewrite H. reflexivity.
Qed.

Lemma scaled_below (x : Q) :
  0 < x -> x / 2 ^ exponentOf x < inject_Z (2 ^ 53).
Proof.
  intros Hpos. destruct (floorLog2_spec x Hpos) as [_ Hhi].
  apply Qlt_shift_div_r; [apply two_power_pos|].
  eapply Qlt_le_trans; [exact Hhi|].
  rewrite Zpower_Qpower by lia. change (inject_Z 2) with 2.
  rewrite <- Qpower_plus by discriminate.
  apply Qpower_le_compat_l; [unfold exponentOf; lia | discriminate].
Qed.

Lemma scaled_above (x : Q) :
  0 < x -> (-1074 <= floorLog2 x - 52)%Z ->
  inject_Z (2 ^ 52) <= x / 2 ^ exponentOf x.
Proof.
  intros Hpos Hnormal. destruct (floorLog2_spec x Hpos) as [Hlo _].
  apply Qle_shift_div_l; [apply two_power_pos|].
  eapply Qle_trans; [|exact Hlo].
  rewrite Zpower_Qpower by lia. change (inject_Z 2) with 2.
  rewrite <- Qpower_plus by discriminate.
  apply Qpower_le_compat_l; [unfold exponentOf; lia | discriminate].
Qed.

Lemma roundPositive_nonneg (x : Q) : 0 < x -> 0 <= roundPositive x.
Proof.
  intros Hpos. unfold roundPositive.
  apply Qmult_le_0_compat; [|apply Qlt_le_weak, two_power_pos].
  change 0 with (inject_Z 0). rewrite <- Zle_Qle.
  rewrite <- (roundHalfEven_integer 0). apply roundHalfEven_monotone.
  apply Qle_shift_div_l; [apply two_power_pos|].
  change (inject_Z 0) with 0. rewrite Qmult_0_l. apply Qlt_le_weak. exact Hpos.
Qed.

Lemma roundPositive_upper (x : Q) :
  0 < x -> roundPositive x <= 2 ^ (exponentOf x + 53).
Proof.
  intros Hpos. unfold roundPositive.
  rewrite Qpower_plus by discriminate. rewrite (Qmult_comm (2 ^ exponentOf x)).
  apply Qmult_le_r; [apply two_power_pos|].
  change (2 ^ 53) with (inject_Z (2 ^ 53)). rewrite <- Zle_Qle.
  rewrite <- (roundHalfEven_integer (2 ^ 53)). apply roundHalfEven_monotone.
  apply Qlt_le_weak, scaled_below. exact Hpos.
Qed.

Lemma roundPositive_lower (x : Q) :
  0 < x -> (-1074 <= floorLog2 x - 52)%Z ->
  2 ^ (exponentOf x + 52) <= roundPositive x.
Proof.
  intros Hpos Hnormal. unfold roundPositive.
  rewrite Qpower_plus by discriminate. rewrite (Qmult_comm (2 ^ exponentOf x)).
  apply Qmult_le_r; [apply two_power_pos|].
  change (2 ^ 52) with (inject_Z (2 ^ 52)). rewrite <- Zle_Qle.
  rewrite <- (roundHalfEven_integer (2 ^ 52)). apply roundHalfEven_monotone.
  apply scaled_above; assumption.
Qed.

Lemma roundPositive_monotone (x y : Q) :
  0 < x -> x <= y -> roundPositive x <= roundPositive y.
Proof.
  intros Hpos Hle.
  assert (Hposy : 0 < y) by (eapply Qlt_le_trans; eassumption).
  pose proof (floorLog2_monotone x y Hpos Hle) as Hlog.
  destruct (Z.eq_dec (exponentOf x) (exponentOf y)) as [Heq | Hne].
  - unfold roundPositive. rewrite <- Heq.
    apply Qmult_le_r; [apply two_power_pos|].
    rewrite <- Zle_Qle. apply roundHalfEven_monotone.
    apply Qmult_le_r; [apply Qinv_lt_0_compat, two_power_pos | exact Hle].
  - assert (Hlt : (exponentOf x < exponentOf y)%Z) by (unfold exponentOf in *; lia).
    assert (Hnormal : (-1074 <= floorLog2 y - 52)%Z) by (unfold exponentOf in *; lia).
    eapply Qle_trans; [apply roundPositive_upper; exact Hpos|].
    eapply Qle_trans; [|apply roundPositive_lower; assumption].
    apply Qpower_le_compat_l; [lia | discriminate].
Qed.

Lemma roundToDouble_positive (x : Q) :
  0 < x -> roundToDouble x = roundPositive x.
Proof.
  intros Hpos. unfold roundToDouble.
  assert (H : (x ?= 0) = Gt) by (rewrite <- Qgt_alt; exact Hpos).
  rewrite H. reflexivity.
Qed.

Lemma roundToDouble_zero (x : Q) : x == 0 -> roundToDouble x = 0.
Proof.
  intros Hzero. unfold roundToDouble.
  assert (H : (x ?= 0) = Eq) by (rewrite <- Qeq_alt; exact Hzero).
  rewrite H. reflexivity.
Qed.

Lemma roundToDouble_nonneg (x : Q) : 0 <= x -> 0 <= roundToDouble x.
Proof.
  intros Hle. apply Qle_lteq in Hle. destruct Hle as [Hpos | Hzero].
  - rewrite roundToDouble_positive by exact Hpos. apply roundPositive_nonneg. exact Hpos.
  - rewrite roundToDouble_zero by (symmetry; exact Hzero). apply Qle_refl.
Qed.

Lemma roundToDouble_monotone (x y : Q) :
  0 <= x -> x <= y -> roundToDouble x <= roundToDouble y.
Proof.
  intros Hx Hle. apply Qle_lteq in Hx. destruct Hx as [Hpos | Hzero].
  - rewrite (roundToDouble_positive x) by exact Hpos.
    rewrite (roundToDouble_positive y) by (eapply Qlt_le_trans; eassumption).
    apply roundPositive_monotone; assumption.
  - rewrite (roundToDouble_zero x) by (symmetry; exact Hzero).
    apply roundToDouble_nonneg. rewrite Hzero. exact Hle.
Qed.

Lemma double_below_one (r : Q) :
  isDouble r -> r < 1 -> r <= 1 - 2 ^ (-53).
Proof.
  intros Hdouble Hlt. apply Qnot_lt_le. intros Hgt.
  assert (Hhalf : 2 ^ (-1) <= r).
  { apply Qlt_le_weak. eapply Qle_lt_trans; [|exact Hgt]. discriminate. }
  assert (Hpos : 0 < r) by (eapply Qlt_le_trans; [|exact Hhalf]; reflexivity).
  assert (Hlog : floorLog2 r = (-1)%Z) by (apply floorLog2_unique; assumption).
  assert (He : exponentOf r = (-53)%Z) by (unfold exponentOf; rewrite Hlog; reflexivity).
  unfold isDouble in Hdouble. rewrite roundToDouble_positive in Hdouble by exact Hpos.
  unfold roundPositive in Hdouble. rewrite He in Hdouble.
  set (m := roundHalfEven (r / 2 ^ (-53))) in *.
  assert (Hm : r == inject_Z m * 2 ^ (-53)) by (symmetry; exact Hdouble).
  assert (Hupper : inject_Z m < inject_Z (2 ^ 53)).
  { apply Qmult_lt_r with (z := 2 ^ (-53)); [apply two_power_pos|].
    rewrite <- Hm. eapply Qlt_le_trans; [exact Hlt | discriminate]. }
  assert (Hlower : inject_Z (2 ^ 53 - 1) < inject_Z m).
  { apply Qmult_lt_r with (z := 2 ^ (-53)); [apply two_power_pos|].
    rewrite <- Hm. eapply Qle_lt_trans; [|exact Hgt]. discriminate. }
  rewrite <- Zlt_Qlt in Hupper, Hlower. lia.
Qed.

End NumberProperties.

(** ** Verification and reset codes (userSchema.js) *)

Section CodePartRange.
Import UserSchema.
#[local] Open Scope Q_scope.

Lemma product_bounds (r : Q) :
  isDouble r -> 0 <= r -> r < 1 ->
  0 <= roundToDouble (r * 900) /\ roundToDouble (r * 900) <= 900 - 2 ^ (-43).
Proof.
  intros Hdouble Hlo Hhi.
  pose proof (double_below_one r Hdouble Hhi) as Hmax.
  assert (Hx : 0 <= r * 900) by (apply Qmult_le_0_compat; [exact Hlo | discriminate]).
  split; [apply roundToDouble_nonneg; exact Hx|].
  apply Qle_trans with (roundToDouble ((1 - 2 ^ (-53)) * 900)).
  - apply roundToDouble_monotone; [exact Hx|]. apply Qmult_le_r; [reflexivity | exact Hmax].
  - vm_compute. discriminate.
Qed.

Lemma sum_bounds (p : Q) :
  0 <= p -> p <= 900 - 2 ^ (-43) ->
  100 <= roundToDouble (100 + p) /\ roundToDouble (100 + p) < 1000.
Proof.
  intros Hlo Hhi. split.
  - apply Qle_trans with (roundToDouble 100); [vm_compute; discriminate|].
    apply roundToDouble_monotone; [discriminate|].
    rewrite <- (Qplus_0_r 100) at 1. apply Qplus_le_r. exact Hlo.
  - apply Qle_lt_trans with (roundToDouble (100 + (900 - 2 ^ (-43)))); [|vm_compute; reflexivity].
    apply roundToDouble_monotone.
    + apply Qle_trans with (100 + 0); [discriminate|]. apply Qplus_le_r. exact Hlo.
    + apply Qplus_le_r. exact Hhi.
Qed.

Lemma codePart_range (r : Q) :
  isDouble r -> 0 <= r -> r < 1 -> (100 <= codePart r <= 999)%Z.
Proof.
  intros Hdouble Hlo Hhi. unfold codePart.
  destruct (product_bounds r Hdouble Hlo Hhi) as [Hp0 Hp1].
  destruct (sum_bounds _ Hp0 Hp1) as [Hs0 Hs1].
  set (s := roundToDouble (100 + roundToDouble (r * 900))) in *. split.
  - change 100%Z with (Qfloor (inject_Z 100)). apply Qfloor_resp_le. exact Hs0.
  - pose proof (Qfloor_le s) as Hfloor.
    assert (Hz : inject_Z (Qfloor s) < inject_Z 1000) by (eapply Qle_lt_trans; eassumption).
    rewrite <- Zlt_Qlt in Hz. lia.
Qed.

(** The rounding shows in the result: at the double nearest to 1/3 the exact
    value of [100 + r * 900] is below 400, and the Number computed is 400;
    at the largest double below 1 the part is still 999. *)
Lemma codePart_rounds_to_doubles :
  isDouble third /\ Qfloor (100 + third * 900) = 399%Z /\
  codePart third = 400%Z /\
  isDouble almostOne /\ codePart almostOne = 999%Z.
Proof. unfold isDouble. repeat split; vm_compute; reflexivity. Qed.

End CodePartRange.

Section CodeProperties.
Import UserSchema.

Lemma toString_threeDigits (n : Z) :
  100 <= n <= 999 -> threeDigits (toString n) = true.
Proof.
  intros Hn.
  assert (Hall : forallb (fun k => threeDigits (toString (Z.of_nat k)))
                         (seq 100 900) = true) by (vm_compute; reflexivity).
  rewrite forallb_forall in Hall.
  specialize (Hall (Z.to_nat n)).
  rewrite Z2Nat.id in Hall by lia.
  apply Hall. apply in_seq. lia.
Qed.

Lemma threeDigits_format (s1 s2 : string) :
  threeDigits s1 = true -> threeDigits s2 = true ->
  matchesCodeFormat (s1 ++ "-" ++ s2) = true.
Proof.
  destruct s1 as [|a [|b [|c [|? ?]]]]; try discriminate.
  destruct s2 as [|d [|e [|f [|? ?]]]]; try discriminate.
  unfold threeDigits, matchesCodeFormat. intros H1 H2. simpl.
  apply andb_true_iff in H1 as [H1 Hc]. apply andb_true_iff in H1 as [Ha Hb].
  apply andb_true_iff in H2 as [H2 Hf]. apply andb_true_iff in H2 as [Hd He].
  rewrite Ha, Hb, Hc, Hd, He, Hf. reflexivity.
Qed.

(** C8. With both draws of [Math.random()] doubles in [0, 1), and the
    product and the sum of [generateCode] rounded to doubles as Number
    arithmetic does: each half of the generated code is the decimal form of
    an integer from 100 to 999, the code matches DDD-DDD;
    [generateVerifyCode] returns the code, stores it in [verifyCode] and
    stores the current time plus 15 minutes in [verifyCodeExpiresAt],
    whatever code and expiry were pending before, and [generateResetCode]
    does the same on [resetCode] and [resetCodeExpiresAt]. *)
Theorem generated_code_format_expiry_overwrite
    (now : time) (r1 r2 : Q) (this : User) :
  isDouble r1 -> (0 <= r1)%Q -> (r1 < 1)%Q ->
  isDouble r2 -> (0 <= r2)%Q -> (r2 < 1)%Q ->
  let code := generateCode r1 r2 in
  (exists half1 half2,
      100 <= half1 <= 999 /\ 100 <= half2 <= 999 /\
      code = toString half1 ++ "-" ++ toString half2) /\
  matchesCodeFormat code = true /\
  (fst (generateVerifyCode now r1 r2 this) = code /\
   verifyCode (snd (generateVerifyCode now r1 r2 this)) = Some code /\
   verifyCodeExpiresAt (snd (generateVerifyCode now r1 r2 this))
   = Some (now + 15 * 60 * 1000)) /\
  (fst (generateResetCode now r1 r2 this) = code /\
   resetCode (snd (generateResetCode now r1 r2 this)) = Some code /\
   resetCodeExpiresAt (snd (generateResetCode now r1 r2 this))
   = Some (now + 15 * 60 * 1000)).
Proof.
  intros Hd1 Hlo1 Hhi1 Hd2 Hlo2 Hhi2 code.
  pose proof (codePart_range r1 Hd1 Hlo1 Hhi1) as Hr1.
  pose proof (codePart_range r2 Hd2 Hlo2 Hhi2) as Hr2.
  split; [| split; [| split]].
  - exists (codePart r1), (codePart r2). repeat split; try lia.
  - unfold code, generateCode.
    apply threeDigits_format; apply toString_threeDigits; assumption.
  - repeat split.
  - repeat split.
Qed.

(** A pending code of either kind does not survive the generation of a new
    one, and the other kind is left alone. *)
Lemma generateVerifyCode_frame (now : time) (r1 r2 : Q) (this : User) :
  let this' := snd (generateVerifyCode now r1 r2 this) in
  resetCode this' = resetCode this /\
  resetCodeExpiresAt this' = resetCodeExpiresAt this /\
  failedLoginAttempts this' = failedLoginAttempts this /\
  passwordHash this' = passwordHash this.
Proof. repeat split. Qed.

Lemma generateResetCode_frame (now : time) (r1 r2 : Q) (this : User) :
  let this' := snd (generateResetCode now r1 r2 this) in
  verifyCode this' = verifyCode this /\
  verifyCodeExpiresAt this' = verifyCodeExpiresAt this /\
  failedLoginAttempts this' = failedLoginAttempts this /\
  passwordHash this' = passwordHash this.
Proof. repeat split. Qed.

End CodeProperties.

(** ** The password hash (userSchema.js) *)

Lemma substring_whole (n : nat) (s : string) :
  (String.length s <= n)%nat -> substring 0 n s = s.
Proof.
  revert s. induction n as [|n IH]; intros [|c s] Hlen; cbn in *;
    try reflexivity; try lia.
  rewrite IH by lia. reflexivity.
Qed.

Section PasswordProperties.
Import UserSchema.
Context `{B : Bcrypt} {L : BcryptLaws B}.

Lemma preSave_unmodified (entropy : Z) (this : User) :
  passwordHashModified this = false -> preSave entropy this = Normal this.
Proof. intros Hflag. unfold preSave. rewrite Hflag. reflexivity. Qed.

Lemma preSave_modified (entropy : Z) (this saved : User) :
  passwordHashModified this = true ->
  preSave entropy this = Normal saved ->
  exists salt hashed,
    bcrypt_genSalt SALT_ROUNDS entropy = Normal salt /\
    bcrypt_hash (passwordHash this) salt = Normal hashed /\
    saved = set_passwordHash hashed this.
Proof.
  intros Hflag. unfold preSave. rewrite Hflag. cbn.
  destruct (bcrypt_genSalt SALT_ROUNDS entropy) as [salt|]; [| discriminate].
  destruct (bcrypt_hash (passwordHash this) salt) as [hashed|] eqn:Hhash;
    [| discriminate].
  intros [= <-]. exists salt, hashed. repeat split. exact Hhash.
Qed.

Lemma runOp_passwordHash (call : time * AccountOp) (this : User) :
  passwordHash (runOp call this) <> passwordHash this ->
  passwordHashModified this = true /\ exists entropy, snd call = CallSave entropy.
Proof.
  destruct call as [now op]. destruct op; cbn; try congruence.
  - unfold incrementLoginAttempts. cbn.
    destruct (MAX_FAILED_ATTEMPTS <=? failedLoginAttempts this + 1); cbn; congruence.
  - destruct (passwordHashModified this) eqn:Hflag.
    + intros _. split; [reflexivity | eauto].
    + rewrite preSave_unmodified by exact Hflag. congruence.
Qed.

(** bcrypt reads no more than the key of a password: a password with the
    key of the saved one is accepted, whatever follows the key. *)
Lemma same_key_verifies (entropy : Z) (this saved : User) (q : string) :
  passwordHashModified this = true ->
  preSave entropy this = Normal saved ->
  bcryptKey q = bcryptKey (passwordHash this) ->
  verifyPassword q saved = true.
Proof.
  intros Hflag Hsave Hkey.
  destruct (preSave_modified entropy this saved Hflag Hsave)
    as (salt & hashed & _ & Hhash & ->).
  unfold verifyPassword. cbn. eapply compare_hash; eassumption.
Qed.


End PasswordProperties.

Section StandIn.
Import UserSchema.

Lemma standInBcrypt_laws : BcryptLaws standInBcrypt.
Proof.
  split.
  - intros data salt encrypted candidate [= <-]. cbn.
    assert (Hmark : Ascii.eqb (standInMarker data) "$"
                    || Ascii.eqb (standInMarker data) "#" = true).
    { unfold standInMarker. destruct data as [|c data]; [reflexivity |].
      destruct (Ascii.eqb c "$"); reflexivity. }
    rewrite Hmark. cbn. rewrite String.eqb_eq. split; congruence.
  - intros data salt encrypted [= <-]. destruct data as [|c data].
    + discriminate.
    + cbn. intros [= Hc _]. destruct (Ascii.eqb c "$") eqn:Hdollar.
      * apply Ascii.eqb_eq in Hdollar. subst c. discriminate.
      * subst c. discriminate.
Qed.



End StandIn.

(** ** Consuming verification and reset codes (specified flows) *)

Section ConsumeProperties.
Import UserSchema AccountSecurity.

Lemma consumeVerifyCode_pending
    (now : time) (candidate code : string) (expiry : time) (this : User) :
  verifyCode this = Some code ->
  verifyCodeExpiresAt this = Some expiry ->
  consumeVerifyCode now candidate this
  = if negb (String.eqb candidate code) then (Throw CodeMismatchError, this)
    else if now <? expiry
    then (Normal tt, set_isVerified true (set_verifyCode None this))
    else (Throw CodeExpiredError, this).
Proof.
  intros Hcode Hexp. unfold consumeVerifyCode. rewrite Hcode, Hexp. reflexivity.
Qed.

Lemma consumeResetCode_pending
    (now : time) (candidate code : string) (expiry : time) (this : User) :
  resetCode this = Some code ->
  resetCodeExpiresAt this = Some expiry ->
  consumeResetCode now candidate this
  = if negb (String.eqb candidate code) then (Throw CodeMismatchError, this)
    else if now <? expiry
    then (Normal tt, set_resetCode None this)
    else (Throw CodeExpiredError, this).
Proof.
  intros Hcode Hexp. unfold consumeResetCode. rewrite Hcode, Hexp. reflexivity.
Qed.

Ltac consume_cases :=
  repeat match goal with
         | |- _ /\ _ => split
         | |- _ <-> _ => split
         | |- _ -> _ => intro
         | |- forall _, _ => intro
         | H : _ /\ _ |- _ => destruct H
         end;
  try reflexivity; try discriminate; try lia; try congruence.

(** C3. For an account with a pending verify code, [consumeVerifyCode]
    succeeds if and only if the candidate is the stored code and the current
    time is strictly before the stored expiry; on success the code is
    cleared and [isVerified] becomes true; a failure is a [CodeExpiredError]
    (stored code, past expiry) or a [CodeMismatchError] (another candidate),
    never a silent success, and a second consumption of the same code is a
    mismatch. For an account with a pending reset code [consumeResetCode]
    does the same on the reset code, and leaves [isVerified] alone. *)
Theorem consume_code_single_use
    (now : time) (candidate code : string) (expiry : time) (this : User) :
  (verifyCode this = Some code ->
   verifyCodeExpiresAt this = Some expiry ->
   consumeOutcomes consumeVerifyCode now candidate code expiry this /\
   (candidate = code -> now < expiry ->
    verifyCode (snd (consumeVerifyCode now candidate this)) = None /\
    isVerified (snd (consumeVerifyCode now candidate this)) = true)) /\
  (resetCode this = Some code ->
   resetCodeExpiresAt this = Some expiry ->
   consumeOutcomes consumeResetCode now candidate code expiry this /\
   (candidate = code -> now < expiry ->
    resetCode (snd (consumeResetCode now candidate this)) = None /\
    isVerified (snd (consumeResetCode now candidate this)) = isVerified this)).
Proof.
  split; intros Hcode Hexp.
  - pose proof (fun t => consumeVerifyCode_pending t candidate code expiry
                           this Hcode Hexp) as Hrun.
    unfold consumeOutcomes. rewrite !Hrun.
    destruct (String.eqb_spec candidate code) as [Heq|Hne]; cbn [negb];
      [destruct (Z.ltb_spec now expiry) as [Hlt|Hge] |]; cbn [fst snd];
      consume_cases.
  - pose proof (fun t => consumeResetCode_pending t candidate code expiry
                           this Hcode Hexp) as Hrun.
    unfold consumeOutcomes. rewrite !Hrun.
    destruct (String.eqb_spec candidate code) as [Heq|Hne]; cbn [negb];
      [destruct (Z.ltb_spec now expiry) as [Hlt|Hge] |]; cbn [fst snd];
      consume_cases.
Qed.

End ConsumeProperties.

Section ConsumeExamples.
Import UserSchema AccountSecurity.

Lemma consume_code_single_use_witness :
  verifyCode bob = Some "123-456" /\
  verifyCodeExpiresAt bob = Some 5000 /\
  fst (consumeVerifyCode 1000 "123-456" bob) = Normal tt /\
  isVerified (snd (consumeVerifyCode 1000 "123-456" bob)) = true /\
  consumeVerifyCode 2000 "123-456" (snd (consumeVerifyCode 1000 "123-456" bob))
  = (Throw CodeMismatchError, snd (consumeVerifyCode 1000 "123-456" bob)).
Proof.
  split; [reflexivity | split; [reflexivity |]].
  destruct (consume_code_single_use 1000 "123-456" "123-456" 5000 bob)
    as [Hverify _].
  destruct (Hverify eq_refl eq_refl) as [(Hiff & _ & _ & Hagain) Hclear].
  split; [apply Hiff; split; [reflexivity | lia] |].
  split; [apply Hclear; [reflexivity | lia] |].
  apply Hagain; [reflexivity | lia].
Defined.

End ConsumeExamples.

(** ** The model registry (mongoDatabase.js, mongoModel.js) *)

Section RegistryProperties.
Import MongoDatabase.
Context {Schema Model Connection : Type}.
Context (connection_model :
  Connection -> string -> Schema -> completion JsError Model).

Lemma registerModel_bound (name : string) (schema : Schema) (first : Model)
    (db : Database) :
  models db !! name = Some first ->
  registerModel connection_model name schema db
  = (Throw (alreadyRegistered name), db).
Proof. intros Hbound. unfold registerModel. rewrite Hbound. reflexivity. Qed.

Lemma registerModel_success (name : string) (schema : Schema)
    (db db' : Database) :
  registerModel connection_model name schema db = (Normal tt, db') ->
  exists connection model,
    mongooseConnection db = Some connection /\
    connection_model connection name schema = Normal model /\
    models db !! name = None /\
    db' = mkDatabase (mongooseConnection db) (<[name := model]> (models db)).
Proof.
  unfold registerModel.
  destruct (models db !! name) as [m|] eqn:Hfree; [discriminate |].
  destruct (mongooseConnection db) as [connection|] eqn:Hconn; [| discriminate].
  destruct (connection_model connection name schema) as [model|] eqn:Hcompile;
    [| discriminate].
  intros [= <-]. exists connection, model. repeat split; assumption.
Qed.

(** C4. In a registry where [name] is bound to the model [first], a call of
    [registerModel] with that name fails with the duplicate-model error,
    whatever the schema, and leaves the registry as it is, so [getModel]
    still returns [first]. In particular a [registerModel] that succeeded,
    followed by a second one under the same name, fails the second time and
    keeps the model that the first call compiled. *)
Theorem duplicate_registerModel_fails
    (name : string) (schema : Schema) (first : Model) (db : Database) :
  getModel name db = Some first ->
  registerModel connection_model name schema db
  = (Throw (alreadyRegistered name), db) /\
  getModel name (snd (registerModel connection_model name schema db))
  = Some first /\
  (forall (schema0 : Schema) (db0 : Database),
      registerModel connection_model name schema0 db0 = (Normal tt, db) ->
      exists connection,
        mongooseConnection db0 = Some connection /\
        connection_model connection name schema0 = Normal first).
Proof.
  intros Hbound. unfold getModel in Hbound.
  rewrite (registerModel_bound name schema first db Hbound).
  split; [reflexivity | split; [exact Hbound |]].
  intros schema0 db0 Hfirst.
  destruct (registerModel_success name schema0 db0 db Hfirst)
    as (connection & model & Hconn & Hcompile & _ & ->).
  cbn in Hbound. rewrite lookup_insert_eq in Hbound.
  injection Hbound as ->. exists connection. split; assumption.
Qed.

(** The constructor of a model class registers its schema only when the name
    is free: on a bound name it reuses the registered model and does not
    raise the duplicate-model error. *)
Lemma constructor_reuses_registered
    (className name : string) (schema : Schema) (first : Model) (db : Database) :
  getModel name db = Some first ->
  MongooseModel_constructor connection_model className name (Some schema) db
  = (Normal (Some first), db).
Proof.
  intros Hbound. unfold MongooseModel_constructor. unfold getModel in *.
  rewrite Hbound. reflexivity.
Qed.

End RegistryProperties.

Section RegistryExamples.
Import MongoDatabase.

Lemma duplicate_registerModel_fails_witness :
  getModel "user" oneUser = Some ("user", "v1") /\
  registerModel pairModel "user" "v2" oneUser
  = (Throw (alreadyRegistered "user"), oneUser).
Proof.
  split; [reflexivity |].
  apply (duplicate_registerModel_fails pairModel "user" "v2" ("user", "v1")
           oneUser eq_refl).
Defined.

End RegistryExamples.

(** ** Writes of the log sink (mongoLog.js) *)

Section LogWriteProperties.
Import MongoLog.

(** C6, as stated, fails: on a connected sink with console mirroring whose
    store rejects the insert, [info] rejects with the error of the store
    and nothing reaches the console. *)
Lemma write_failure_raises_counterexample :
  info [VString "started"] 0 mirroredSink failingStore
  = (Throw (Error "connection lost"), failingStore) /\
  ~ neverRaisesAlwaysMirrors Minfo [VString "started"] 0 mirroredSink failingStore.
Proof.
  split; [reflexivity |].
  intros [Hnormal _]. discriminate Hnormal.
Qed.

(** C6, amended. For every write call (any level) on a connected sink: when
    the store rejects the insert, the call raises the error of the store
    to its caller, and neither the collection nor the console changes; when
    the store accepts it, the call returns, the entry is appended to the
    collection, and the arguments reach the console exactly when console
    mirroring is enabled. On a sink that is not connected the call raises
    and changes nothing. *)
Theorem write_raises_store_failure
    (m : Method) (args : list JsValue) (now : time) (this : Sink) (w : World) :
  (forall handle reason,
      collection this = Some handle -> insertFailure w = Some reason ->
      write m args now this w = (Throw (Error reason), w)) /\
  (forall handle,
      collection this = Some handle -> insertFailure w = None ->
      fst (write m args now this w) = Normal tt /\
      entries (snd (write m args now this w))
      = (entries w ++ [mkLogEntry (methodName m) (join " " (map JsString args))
                                  [] now])%list /\
      console (snd (write m args now this w))
      = if logToConsole this
        then (console w ++ [mkConsoleCall (methodName m) args])%list
        else console w) /\
  (collection this = None ->
   write m args now this w = (Throw notConnected, w)).
Proof.
  unfold write, _insertLog, insertOne.
  split; [| split].
  - intros handle reason Hconn Hfail. rewrite Hconn, Hfail. reflexivity.
  - intros handle Hconn Hok. rewrite Hconn, Hok. cbn.
    destruct (logToConsole this); repeat split.
  - intros Hnone. rewrite Hnone. reflexivity.
Qed.

Lemma write_raises_store_failure_witness :
  collection mirroredSink = Some "logs" /\
  insertFailure failingStore = Some "connection lost" /\
  write Mwarn [VString "disk"; VNumber 95] 0 mirroredSink failingStore
  = (Throw (Error "connection lost"), failingStore).
Proof.
  split; [reflexivity | split; [reflexivity |]].
  destruct (write_raises_store_failure Mwarn [VString "disk"; VNumber 95] 0
              mirroredSink failingStore) as [Hfail _].
  apply (Hfail "logs" "connection lost"); reflexivity.
Defined.

End LogWriteProperties.

(** ** Retention of the log collection (createLog.js) *)

Section CreateLogProperties.
Import CreateLog.
Context (validate : Tenant -> Validated * list ValidationError).
Context (isDebugging : bool).

(** A tenant that fails validation is rejected before the store is
    contacted. *)
Lemma createLog_invalid (tenant : Tenant) (validated : Validated)
    (e : ValidationError) (errors : list ValidationError) (w : World) :
  validate tenant = (validated, e :: errors) ->
  createLog validate isDebugging tenant w
  = (Throw (Error (join ", " (map message (e :: errors)))), w).
Proof. intros Hv. unfold createLog. rewrite Hv. reflexivity. Qed.

(** C5. A validated configuration with [log_capped] true and
    [log_expiration_days] set: [createLog] raises the conflicting-retention
    error and the world is as before the call, so no connection was opened
    (no [Connected] event was added) and no collection was created. *)
Theorem capped_with_ttl_rejected_before_connect
    (tenant : Tenant) (validated : Validated) (days : Z) (w : World) :
  validate tenant = (validated, []) ->
  log_capped validated = Some true ->
  log_expiration_days validated = Some days ->
  days <> 0 ->
  createLog validate isDebugging tenant w = (Throw conflictingRetention, w) /\
  events (snd (createLog validate isDebugging tenant w)) = events w /\
  collections (snd (createLog validate isDebugging tenant w)) = collections w.
Proof.
  intros Hv Hcapped Hdays Hnz.
  assert (Hrun : createLog validate isDebugging tenant w
                 = (Throw conflictingRetention, w)).
  { unfold createLog. rewrite Hv. cbn. rewrite Hcapped, Hdays. cbn.
    apply Z.eqb_neq in Hnz. rewrite Hnz. reflexivity. }
  rewrite Hrun. repeat split.
Qed.

End CreateLogProperties.

Section CreateLogExamples.
Import CreateLog.

Lemma capped_with_ttl_rejected_before_connect_witness :
  schemaValidate cappedAndTtl
  = (mkValidated "mongodb://localhost/app" "logs" (Some 30) (Some true)
                 (Some 16) (Some 1000), []) /\
  createLog schemaValidate true cappedAndTtl emptyStore
  = (Throw conflictingRetention, emptyStore).
Proof.
  split; [reflexivity |].
  apply (capped_with_ttl_rejected_before_connect schemaValidate true
           cappedAndTtl _ 30 emptyStore eq_refl eq_refl eq_refl).
  discriminate.
Defined.

End CreateLogExamples.

Section TtlIndexProperties.
Import CreateLog.
Context (validate : Tenant -> Validated * list ValidationError).
Context (isDebugging : bool).

Lemma collections_emit (e : Event) (w : World) :
  collections (emit e w) = collections w.
Proof. reflexivity. Qed.

Lemma unreachable_emit (e : Event) (w : World) :
  unreachable (emit e w) = unreachable w.
Proof. reflexivity. Qed.

Lemma collections_debugWhen (b : bool) (text : string) (w : World) :
  collections (debugWhen b text w) = collections w.
Proof. destruct b; reflexivity. Qed.

Lemma unreachable_debugWhen (b : bool) (text : string) (w : World) :
  unreachable (debugWhen b text w) = unreachable w.
Proof. destruct b; reflexivity. Qed.

Lemma isTimestampTtl_timestampTtl (days : Z) :
  isTimestampTtl (timestampTtl days) = true.
Proof. reflexivity. Qed.

Lemma existsb_isTimestampTtl_member (days : Z) (l : list Index) :
  timestampTtl days ∈ l -> existsb isTimestampTtl l = true.
Proof.
  intros Hin. apply existsb_exists. exists (timestampTtl days).
  split; [apply list_elem_of_In; exact Hin | reflexivity].
Qed.

Lemma createLogTry_ttl (validated : Validated) (days : Z) (w : World) :
  truthyBool (log_capped validated) = false ->
  log_expiration_days validated = Some days ->
  days <> 0 ->
  unreachable w = None ->
  collections (snd (createLogTry isDebugging validated w))
  = afterTtlSetup (log_collection_name validated) days (collections w)
  /\ unreachable (snd (createLogTry isDebugging validated w)) = None
  /\ is_normal (fst (createLogTry isDebugging validated w))
     = match collections w !! log_collection_name validated with
       | Some c => existsb isTimestampTtl (indexes c)
                   || negb (refusesIndex (timestampTtl days) c)
       | None => true
       end.
Proof.
  intros Hcapped Hdays Hnz Hreach.
  apply Z.eqb_neq in Hnz.
  unfold createLogTry, afterTtlSetup.
  rewrite Hreach, Hcapped, Hdays. cbn [andb negb truthyNumber default id].
  rewrite Hnz. cbn [negb]. rewrite collections_emit.
  destruct (collections w !! log_collection_name validated) as [c|] eqn:Hlook.
  - rewrite bool_decide_eq_true_2 by eauto. cbn [negb].
    unfold listIndexes. rewrite collections_debugWhen, collections_emit, Hlook.
    destruct (existsb isTimestampTtl (indexes c)) eqn:Httl; cbn [negb].
    + destruct isDebugging; cbn; repeat split; assumption || reflexivity.
    + unfold createIndex.
      rewrite collections_debugWhen, collections_emit, Hlook.
      rewrite bool_decide_eq_false_2.
      2:{ intros Hin. apply (existsb_isTimestampTtl_member days) in Hin.
          congruence. }
      fold (refusesIndex (timestampTtl days) c).
      destruct (refusesIndex (timestampTtl days) c); destruct isDebugging; cbn;
        repeat split; assumption || reflexivity.
  - rewrite bool_decide_eq_false_2 by (intros [? ?]; discriminate). cbn [negb].
    unfold createCollection. rewrite collections_emit, Hlook.
    unfold listIndexes. rewrite collections_debugWhen. cbn [setCollections collections].
    rewrite lookup_insert_eq. cbn [indexes existsb].
    change (isTimestampTtl idIndex || false) with false. cbn [negb].
    unfold createIndex. rewrite collections_debugWhen.
    cbn [setCollections collections]. rewrite lookup_insert_eq.
    cbn [indexes capped].
    rewrite bool_decide_eq_false_2
      by (intros Hin; apply list_elem_of_singleton in Hin; discriminate).
    assert (Hfree : existsb (fun i => sameName i (timestampTtl days)
                                      || sameKey i (timestampTtl days))
                            [idIndex] = false) by reflexivity.
    rewrite Hfree.
    destruct isDebugging; cbn; rewrite insert_insert_eq;
      repeat split; assumption || reflexivity.
Qed.

(** The setup is idempotent on the collections. *)
Lemma afterTtlSetup_idempotent (collectionName : string) (days : Z)
    (cs : gmap string Collection) :
  afterTtlSetup collectionName days (afterTtlSetup collectionName days cs)
  = afterTtlSetup collectionName days cs.
Proof.
  destruct (cs !! collectionName) as [c|] eqn:Hlook.
  - destruct (existsb isTimestampTtl (indexes c)) eqn:Httl.
    + assert (Hsame : afterTtlSetup collectionName days cs = cs)
        by (unfold afterTtlSetup; rewrite Hlook, Httl; reflexivity).
      rewrite !Hsame. reflexivity.
    + destruct (refusesIndex (timestampTtl days) c) eqn:Hrefuse.
      * assert (Hsame : afterTtlSetup collectionName days cs = cs)
          by (unfold afterTtlSetup; rewrite Hlook, Httl, Hrefuse; reflexivity).
        rewrite !Hsame. reflexivity.
      * assert (Hadd : afterTtlSetup collectionName days cs
                       = <[collectionName :=
                             mkCollection (capped c)
                               (indexes c ++ [timestampTtl days])]> cs)
          by (unfold afterTtlSetup; rewrite Hlook, Httl, Hrefuse; reflexivity).
        rewrite Hadd. unfold afterTtlSetup.
        rewrite lookup_insert_eq. cbn [indexes].
        rewrite existsb_app. cbn [existsb].
        rewrite isTimestampTtl_timestampTtl, orb_true_r. reflexivity.
  - assert (Hnew : afterTtlSetup collectionName days cs
                   = <[collectionName :=
                         mkCollection None [idIndex; timestampTtl days]]> cs)
      by (unfold afterTtlSetup; rewrite Hlook; reflexivity).
    rewrite Hnew. unfold afterTtlSetup. rewrite lookup_insert_eq. reflexivity.
Qed.

Lemma createLog_ttl (tenant : Tenant) (validated : Validated) (days : Z)
    (w : World) :
  validate tenant = (validated, []) ->
  truthyBool (log_capped validated) = false ->
  log_expiration_days validated = Some days ->
  days <> 0 ->
  let result := createLog validate isDebugging tenant w in
  unreachable (snd result) = unreachable w /\
  collections (snd result)
  = match unreachable w with
    | Some _ => collections w
    | None => afterTtlSetup (log_collection_name validated) days (collections w)
    end /\
  is_normal (fst result)
  = match unreachable w, collections w !! log_collection_name validated with
    | Some _, _ => false
    | None, Some c => existsb isTimestampTtl (indexes c)
                      || negb (refusesIndex (timestampTtl days) c)
    | None, None => true
    end.
Proof.
  intros Hv Hcapped Hdays Hnz. unfold createLog. rewrite Hv, Hcapped.
  cbn [length Nat.ltb Nat.leb andb].
  destruct (unreachable w) as [reason|] eqn:Hreach.
  - unfold createLogTry. rewrite Hreach.
    destruct isDebugging; cbn; repeat split; assumption || reflexivity.
  - destruct (createLogTry_ttl validated days w Hcapped Hdays Hnz Hreach)
      as (Hcs & Hun & Hok).
    destruct (createLogTry isDebugging validated w) as [[logger|err] w'];
      cbn [fst snd is_normal] in *.
    + repeat split; assumption.
    + destruct isDebugging; cbn; repeat split; assumption.
Qed.


End TtlIndexProperties.

(** ** Clean databases under test (createDB.js) *)

Section CreateDBProperties.
Import CreateDB.
Context (validate : Tenant -> Validated * list ValidationError).
Context (isDebugging : bool).

Lemma dropOne_collections (c : Collection) (w : World) :
  collections (dropOne c w)
  = if decide (dropFailure c = None)
    then filter (fun c' => collectionName c' ≠ collectionName c) (collections w)
    else collections w.
Proof.
  unfold dropOne. destruct (dropFailure c) as [reason|]; cbn.
  - destruct (negb (String.eqb reason "ns not found")
              && negb (includes "a background operation is currently running"
                                reason)); reflexivity.
  - reflexivity.
Qed.

Lemma dropOne_events (c : Collection) (w : World) :
  events (dropOne c w) = (events w ++ dropOneEvents c)%list.
Proof.
  unfold dropOne, dropOneEvents. destruct (dropFailure c) as [reason|]; cbn.
  - destruct (negb (String.eqb reason "ns not found")
              && negb (includes "a background operation is currently running"
                                reason)); cbn;
      rewrite <- ?app_assoc; reflexivity.
  - rewrite <- app_assoc. reflexivity.
Qed.

Lemma filter_keeps_all {A : Type} (P : A -> Prop) `{!forall x, Decision (P x)}
    (l : list A) :
  (forall x, x ∈ l -> P x) -> filter P l = l.
Proof.
  induction l as [|x l IH]; intros Hall; [reflexivity |].
  rewrite filter_cons_True by (apply Hall; left).
  rewrite IH; [reflexivity |]. intros y Hy. apply Hall. right. exact Hy.
Qed.

Lemma filter_keeps_none {A : Type} (P : A -> Prop) `{!forall x, Decision (P x)}
    (l : list A) :
  (forall x, x ∈ l -> ~ P x) -> filter P l = [].
Proof.
  induction l as [|x l IH]; intros Hall; [reflexivity |].
  rewrite filter_cons_False by (apply Hall; left).
  apply IH. intros y Hy. apply Hall. right. exact Hy.
Qed.

Lemma dropAll_collections (cs : list Collection) :
  forall w,
    collections (fold_left (fun w c => dropOne c w) cs w)
    = filter (fun c' => collectionName c' ∉ droppedNames cs) (collections w).
Proof.
  induction cs as [|c cs IH]; intros w; cbn [fold_left].
  - symmetry. apply filter_keeps_all. intros c' _. apply not_elem_of_nil.
  - rewrite IH, dropOne_collections. unfold droppedNames.
    destruct (decide (dropFailure c = None)) as [Hok|Hfail].
    + rewrite filter_cons_True by exact Hok. cbn [map].
      rewrite list_filter_filter. apply list_filter_iff.
      intros c'. rewrite not_elem_of_cons. tauto.
    + rewrite filter_cons_False by exact Hfail. reflexivity.
Qed.

Lemma dropAll_events (cs : list Collection) :
  forall w,
    events (fold_left (fun w c => dropOne c w) cs w)
    = (events w ++ flat_map dropOneEvents cs)%list.
Proof.
  induction cs as [|c cs IH]; intros w; cbn [fold_left flat_map].
  - rewrite app_nil_r. reflexivity.
  - rewrite IH, dropOne_events, <- app_assoc. reflexivity.
Qed.

Lemma dropCalls_dropOneEvents (cs : list Collection) :
  dropCalls (flat_map dropOneEvents cs) = map collectionName cs.
Proof.
  unfold dropCalls. induction cs as [|c cs IH]; [reflexivity |].
  cbn [flat_map map]. rewrite flat_map_app, IH.
  unfold dropOneEvents. destruct (dropFailure c) as [reason|]; cbn.
  - destruct (negb (String.eqb reason "ns not found")
              && negb (includes "a background operation is currently running"
                                reason)); reflexivity.
  - reflexivity.
Qed.

Lemma dropCalls_connectedEvents (url : string) :
  dropCalls (connectedEvents isDebugging url) = [].
Proof. unfold connectedEvents. destruct isDebugging; reflexivity. Qed.

Lemma all_dropped_nothing_left (cs : list Collection) :
  Forall (fun c => dropFailure c = None) cs ->
  filter (fun c' => collectionName c' ∉ droppedNames cs) cs = [].
Proof.
  intros Hall. apply filter_keeps_none. intros c Hc Hnot. apply Hnot.
  unfold droppedNames. apply list_elem_of_fmap. exists c. split; [reflexivity |].
  apply list_elem_of_filter. split; [| exact Hc].
  rewrite Forall_forall in Hall. apply Hall. exact Hc.
Qed.

(** C10. After validation and a successful connection. With the testing
    flag set (and the server listing its collections), [createDB] returns
    the connection, and by then, after the connection events, it has
    called [drop] on every collection of the database, once each and in
    order; the collections left are those whose name is not among the ones
    the server dropped, and none is left when the server performs every
    drop. With the flag unset, [createDB] returns the connection after the
    connection events alone: no [drop] is called and the collections are as
    before. *)
Theorem createDB_drops_collections_when_testing
    (tenant : Tenant) (validated : Validated) (w : World) :
  validate tenant = (validated, []) ->
  unreachable w = None ->
  (listFailure w = None ->
   let result := createDB validate isDebugging true tenant w in
   fst result = Normal (mkConnection (db_url validated)) /\
   events (snd result)
   = (events w ++ connectedEvents isDebugging (db_url validated)
      ++ flat_map dropOneEvents (collections w))%list /\
   dropCalls (flat_map dropOneEvents (collections w))
   = map collectionName (collections w) /\
   collections (snd result)
   = filter (fun c => collectionName c ∉ droppedNames (collections w))
            (collections w) /\
   (Forall (fun c => dropFailure c = None) (collections w) ->
    collections (snd result) = [])) /\
  (let result := createDB validate isDebugging false tenant w in
   fst result = Normal (mkConnection (db_url validated)) /\
   events (snd result)
   = (events w ++ connectedEvents isDebugging (db_url validated))%list /\
   dropCalls (connectedEvents isDebugging (db_url validated)) = [] /\
   collections (snd result) = collections w).
Proof.
  intros Hv Hreach. split.
  - intros Hlist result.
    assert (Hrun : result
                   = (Normal (mkConnection (db_url validated)),
                      fold_left (fun w c => dropOne c w) (collections w)
                        (mkWorld None None (collections w)
                           (events w
                            ++ connectedEvents isDebugging (db_url validated))))).
    { unfold result, createDB, createDBTry, dropAllCollections, connectedEvents.
      rewrite Hv, Hreach. cbn [length Nat.ltb Nat.leb].
      destruct isDebugging; unfold emit; cbn; rewrite Hlist, Hreach;
        cbn; rewrite <- ?app_assoc; reflexivity. }
    rewrite Hrun. cbn [fst snd].
    rewrite dropAll_events, dropAll_collections. cbn [events collections].
    rewrite <- app_assoc.
    split; [reflexivity | split; [reflexivity |]].
    split; [apply dropCalls_dropOneEvents | split; [reflexivity |]].
    apply all_dropped_nothing_left.
  - unfold createDB, createDBTry, connectedEvents.
    rewrite Hv, Hreach. cbn [length Nat.ltb Nat.leb].
    destruct isDebugging; unfold emit; cbn; rewrite <- ?app_assoc;
      repeat split.
Qed.

End CreateDBProperties.

Section StoreExamples.
Import CreateLog.


End StoreExamples.

Section CreateDBExamples.
Import CreateDB.

Lemma createDB_drops_collections_when_testing_witness :
  schemaValidate localTenant
  = (mkValidated "mongodb://localhost/test", []) /\
  unreachable twoCollections = None /\
  dropCalls (events (snd (createDB schemaValidate false true localTenant
                            twoCollections)))
  = ["users"; "logs"] /\
  collections (snd (createDB schemaValidate false true localTenant twoCollections))
  = [] /\
  collections (snd (createDB schemaValidate false false localTenant twoCollections))
  = collections twoCollections.
Proof.
  split; [reflexivity | split; [reflexivity |]].
  destruct (createDB_drops_collections_when_testing schemaValidate false
              localTenant _ twoCollections eq_refl eq_refl)
    as [Htesting (_ & _ & _ & Hkept)].
  destruct (Htesting eq_refl) as (_ & Hevents & _ & _ & Hall).
  split; [rewrite Hevents; reflexivity |].
  split; [| exact Hkept].
  apply Hall. repeat constructor.
Defined.

End CreateDBExamples.

Section CodeExamples.
Import UserSchema.

Lemma generated_code_format_expiry_overwrite_witness :
  generateCode (1 # 2) third = "550-400" /\
  matchesCodeFormat (generateCode (1 # 2) third) = true /\
  verifyCode (snd (generateVerifyCode 1000 (1 # 2) third bob))
  = Some "550-400" /\
  verifyCodeExpiresAt (snd (generateVerifyCode 1000 (1 # 2) third bob))
  = Some 901000.
Proof.
  split; [vm_compute; reflexivity |].
  assert (D1 : isDouble (1 # 2)) by (vm_compute; reflexivity).
  assert (L1 : (0 <= 1 # 2)%Q) by (unfold Qle; cbn; lia).
  assert (U1 : (1 # 2 < 1)%Q) by (unfold Qlt; cbn; lia).
  assert (D2 : isDouble third) by (vm_compute; reflexivity).
  assert (L2 : (0 <= third)%Q) by (unfold Qle; cbn; lia).
  assert (U2 : (third < 1)%Q) by (unfold Qlt; cbn; lia).
  destruct (generated_code_format_expiry_overwrite 1000 (1 # 2) third
              bob D1 L1 U1 D2 L2 U2) as (_ & Hformat & (_ & Hcode & Hexpiry) & _).
  split; [exact Hformat | split; [|exact Hexpiry]].
  rewrite Hcode. vm_compute. reflexivity.
Defined.

End CodeExamples.

(** * Further properties of the sources *)

(** ** Runs of failed attempts and the lock (userSchema.js) *)

Section LockoutRuns.
Import UserSchema AccountRuns.

Lemma failedAttempts_snoc (times : list time) (now : time) (this : User) :
  failedAttempts (times ++ [now]) this
  = incrementLoginAttempts now (failedAttempts times this).
Proof. unfold failedAttempts. rewrite fold_left_app. reflexivity. Qed.

Lemma failedAttempts_count (times : list time) (this : User) :
  failedLoginAttempts (failedAttempts times this)
  = failedLoginAttempts this + Z.of_nat (length times).
Proof.
  induction times as [|t times IH] using rev_ind; [cbn; lia |].
  rewrite failedAttempts_snoc, length_app, incrementLoginAttempts_count, IH.
  cbn [length]. lia.
Qed.

Lemma failedAttempts_lockUntil (times : list time) (now : time) (this : User) :
  lockUntil (failedAttempts (times ++ [now]) this)
  = if 5 <=? failedLoginAttempts this + Z.of_nat (length times) + 1
    then Some (now + 900000)
    else lockUntil (failedAttempts times this).
Proof.
  rewrite failedAttempts_snoc, incrementLoginAttempts_lock, failedAttempts_count.
  reflexivity.
Qed.

(** X1. After any run of failed attempts the counter is its start value
    plus the length of the run. While that sum is below 5 the run leaves
    [lockUntil] as it was; once it is 5 or more, [lockUntil] is the time of
    the last attempt plus 15 minutes, so every failed attempt at or beyond
    the threshold restarts the lock, also during an active lock. *)
Theorem failed_attempts_lock_from_last_attempt (times : list time) (this : User) :
  failedLoginAttempts (failedAttempts times this)
  = failedLoginAttempts this + Z.of_nat (length times) /\
  (failedLoginAttempts this + Z.of_nat (length times) < 5 ->
   lockUntil (failedAttempts times this) = lockUntil this) /\
  (forall now,
      last times = Some now ->
      5 <= failedLoginAttempts this + Z.of_nat (length times) ->
      lockUntil (failedAttempts times this) = Some (now + 15 * 60 * 1000)).
Proof.
  split; [apply failedAttempts_count |].
  induction times as [|t times IH] using rev_ind.
  - split; [reflexivity | discriminate].
  - destruct IH as [Hbelow _].
    rewrite failedAttempts_lockUntil, length_app. cbn [length]. split.
    + intros Hlt. rewrite (proj2 (Z.leb_gt _ _)) by lia. apply Hbelow. lia.
    + intros now Hlast Hge. rewrite last_snoc in Hlast. injection Hlast as <-.
      rewrite (proj2 (Z.leb_le _ _)) by lia. reflexivity.
Qed.

(** X2. After [resetLock], fewer than five failed attempts never lock the
    account, at whatever times they are made; the fifth one locks it until
    15 minutes after that attempt. *)
Theorem five_failures_after_reset_lock (times : list time) (this : User) :
  ((length times < 5)%nat ->
   forall now, isAccountLocked now (failedAttempts times (resetLock this)) = false) /\
  (forall fifth,
      length times = 5%nat -> last times = Some fifth ->
      forall now,
        isAccountLocked now (failedAttempts times (resetLock this))
        = (now <? fifth + 15 * 60 * 1000)).
Proof.
  split.
  - intros Hlen now. unfold isAccountLocked.
    replace (lockUntil (failedAttempts times (resetLock this))) with (@None time);
      [reflexivity |].
    clear now. induction times as [|t times IH] using rev_ind; [reflexivity |].
    rewrite length_app in Hlen. cbn [length] in Hlen.
    rewrite failedAttempts_lockUntil.
    change (failedLoginAttempts (resetLock this)) with 0.
    rewrite (proj2 (Z.leb_gt _ _)) by lia. apply IH. lia.
  - intros fifth Hlen Hlast now. unfold isAccountLocked.
    destruct times as [|t times] using rev_ind; [discriminate |].
    rewrite last_snoc in Hlast. injection Hlast as ->.
    rewrite length_app in Hlen. cbn [length] in Hlen.
    rewrite failedAttempts_lockUntil.
    change (failedLoginAttempts (resetLock this)) with 0.
    rewrite (proj2 (Z.leb_le _ _)) by lia. reflexivity.
Qed.

(** X3. The expiry of a lock does not reset the counter: on an account whose
    counter is 5 or more and whose lock has expired, [isAccountLocked] is
    false, and the next failed attempt locks the account again, for 15
    minutes from that attempt. *)
Theorem expired_lock_relocks_on_next_failure
    (now until : time) (this : User) :
  5 <= failedLoginAttempts this ->
  lockUntil this = Some until ->
  until <= now ->
  isAccountLocked now this = false /\
  failedLoginAttempts (incrementLoginAttempts now this)
  = failedLoginAttempts this + 1 /\
  (forall later,
      isAccountLocked later (incrementLoginAttempts now this)
      = (later <? now + 15 * 60 * 1000)).
Proof.
  intros Hcount Hlock Hexpired. split; [| split].
  - unfold isAccountLocked. rewrite Hlock. apply Z.ltb_ge. exact Hexpired.
  - apply incrementLoginAttempts_count.
  - intros later. unfold isAccountLocked.
    rewrite incrementLoginAttempts_lock.
    rewrite (proj2 (Z.leb_le _ _)) by lia. reflexivity.
Qed.

Lemma five_failures_after_reset_lock_witness :
  length [10; 20; 30; 40; 50] = 5%nat /\
  last [10; 20; 30; 40; 50] = Some 50 /\
  isAccountLocked 900049 (failedAttempts [10; 20; 30; 40; 50] (resetLock dave))
  = true /\
  isAccountLocked 900050 (failedAttempts [10; 20; 30; 40; 50] (resetLock dave))
  = false /\
  isAccountLocked 45 (failedAttempts [10; 20; 30; 40] (resetLock dave)) = false.
Proof.
  split; [reflexivity | split; [reflexivity |]].
  destruct (five_failures_after_reset_lock [10; 20; 30; 40; 50] dave)
    as [_ Hfifth].
  destruct (five_failures_after_reset_lock [10; 20; 30; 40] dave)
    as [Hbelow _].
  split; [rewrite (Hfifth 50 eq_refl eq_refl); reflexivity |].
  split; [rewrite (Hfifth 50 eq_refl eq_refl); reflexivity |].
  apply Hbelow. cbn. lia.
Defined.

Lemma expired_lock_relocks_on_next_failure_witness :
  5 <= failedLoginAttempts (failedAttempts [1000] dave) /\
  lockUntil (failedAttempts [1000] dave) = Some 901000 /\
  isAccountLocked 901000 (failedAttempts [1000] dave) = false /\
  isAccountLocked 901001
    (incrementLoginAttempts 901000 (failedAttempts [1000] dave)) = true.
Proof.
  assert (Hcount : 5 <= failedLoginAttempts (failedAttempts [1000] dave))
    by (vm_compute; discriminate).
  split; [exact Hcount | split; [reflexivity |]].
  assert (Hexpired : 901000 <= 901000) by lia.
  destruct (expired_lock_relocks_on_next_failure 901000 901000
              (failedAttempts [1000] dave) Hcount eq_refl Hexpired)
    as (Hopen & _ & Hagain).
  split; [exact Hopen |]. rewrite Hagain. reflexivity.
Defined.

Lemma failed_attempts_lock_from_last_attempt_witness :
  lockUntil (failedAttempts [10; 20; 30] dave) = Some 900030 /\
  failedLoginAttempts (failedAttempts [10; 20; 30] dave) = 7.
Proof.
  destruct (failed_attempts_lock_from_last_attempt [10; 20; 30] dave)
    as (Hcount & _ & Hfrom).
  split; [apply (Hfrom 30 eq_refl); vm_compute; discriminate | exact Hcount].
Defined.

End LockoutRuns.

(** ** What the save hook leaves alone (userSchema.js) *)

Section SaveHook.
Import UserSchema AccountRuns.
Context `{B : Bcrypt}.

(** X4. The save hook touches nothing but [passwordHash]: when it calls
    [next()] every other field, the modification mark included, is as
    before. It reports an error only for a document marked modified, and
    the error is the one [bcrypt.genSalt] or [bcrypt.hash] raised. *)
Theorem preSave_changes_only_hash (entropy : Z) (this : User) :
  (forall saved,
      preSave entropy this = Normal saved ->
      otherFields saved = otherFields this) /\
  (forall err,
      preSave entropy this = Throw err ->
      passwordHashModified this = true /\
      (bcrypt_genSalt SALT_ROUNDS entropy = Throw err \/
       exists salt,
         bcrypt_genSalt SALT_ROUNDS entropy = Normal salt /\
         bcrypt_hash (passwordHash this) salt = Throw err)).
Proof.
  unfold preSave. destruct (passwordHashModified this) eqn:Hflag; cbn [negb].
  - destruct (bcrypt_genSalt SALT_ROUNDS entropy) as [salt|e1] eqn:Hsalt.
    + destruct (bcrypt_hash (passwordHash this) salt) as [hashed|e2] eqn:Hhash.
      * split; [| discriminate].
        intros saved [= <-]. unfold otherFields. cbn. rewrite Hflag.
        reflexivity.
      * split; [discriminate |].
        intros err [= <-]. split; [reflexivity |]. right. eauto.
    + split; [discriminate |].
      intros err [= <-]. split; [reflexivity |]. left. reflexivity.
  - split; [| discriminate]. intros saved [= <-]. reflexivity.
Qed.

End SaveHook.

Section SaveHookExamples.
Import UserSchema AccountRuns.

Lemma preSave_changes_only_hash_witness :
  exists saved,
    preSave 7 alice = Normal saved /\
    otherFields saved = otherFields alice /\
    passwordHash saved <> passwordHash alice.
Proof.
  eexists. split; [reflexivity |].
  split; [| discriminate].
  apply (preSave_changes_only_hash (B := standInBcrypt) 7 alice). reflexivity.
Defined.

End SaveHookExamples.

(** ** Methods of the sink that may skip the store (mongoLog.js) *)

Section AssertAndTable.
Import MongoLog.

(** X5. [assert] writes to the store only for a falsy expression. With a
    truthy expression it returns without touching the store, also on a sink
    that is not connected or whose store rejects inserts; with a falsy one
    it returns exactly when the sink is connected and the store accepts the
    insert, and then the entry has the level "assert". [table] never
    touches the store and never raises. *)
Theorem assert_writes_only_failed_assertions
    (args : list JsValue) (now : time) (this : Sink) (w : World) :
  (fst (assert true args now this w) = Normal tt /\
   entries (snd (assert true args now this w)) = entries w) /\
  (is_normal (fst (assert false args now this w)) = true
   <-> is_Some (collection this) /\ insertFailure w = None) /\
  (is_normal (fst (assert false args now this w)) = true ->
   entries (snd (assert false args now this w))
   = (entries w ++ [mkLogEntry "assert" (join " " (map JsString args)) [] now])%list) /\
  (is_normal (fst (assert false args now this w)) = false ->
   snd (assert false args now this w) = w) /\
  (fst (table args this w) = Normal tt /\
   entries (snd (table args this w)) = entries w).
Proof.
  unfold assert, table, _insertLog, insertOne. cbn [negb].
  destruct (collection this) as [handle|];
    destruct (insertFailure w) as [reason|] eqn:Hfail;
    destruct (logToConsole this); cbn;
    repeat split; try reflexivity; try discriminate; try eauto;
    try (intros [[? ?] ?]; discriminate);
    try (intros [? ?]; discriminate).
Qed.

End AssertAndTable.

(** ** The database name of a connection string (mongoLog.js) *)

Section ParseDbName.
Import MongoLogConnection.

Lemma append_associative (a b c : string) : (a ++ b) ++ c = a ++ b ++ c.
Proof.
  induction a as [|x a IH]; [reflexivity |].
  change (String x ((a ++ b) ++ c) = String x (a ++ b ++ c)).
  f_equal. exact IH.
Qed.

Lemma occurs_append (c : ascii) (a b : string) :
  occurs c (a ++ b) = occurs c a || occurs c b.
Proof.
  induction a as [|c' a IH]; [reflexivity |].
  simpl. rewrite IH, orb_assoc. reflexivity.
Qed.

Lemma split_without_separator (separator : ascii) (s : string) :
  occurs separator s = false -> split separator s = [s].
Proof.
  induction s as [|c s IH]; [reflexivity |].
  simpl. intros Hfree. apply orb_false_iff in Hfree as [Hc Hs].
  rewrite Hc, (IH Hs). reflexivity.
Qed.

Lemma split_at_separator (separator : ascii) (a b : string) :
  occurs separator a = false ->
  split separator (a ++ String separator b) = a :: split separator b.
Proof.
  induction a as [|c a IH]; simpl.
  - intros _. rewrite Ascii.eqb_refl. reflexivity.
  - intros Hfree. apply orb_false_iff in Hfree as [Hc Ha].
    rewrite Hc, (IH Ha). reflexivity.
Qed.

(** Splitting and joining on the same separator gives the string back. *)
Lemma join_split (separator : ascii) (s : string) :
  join (String separator EmptyString) (split separator s) = s.
Proof.
  unfold join. induction s as [|c s IH]; [reflexivity |].
  simpl. destruct (Ascii.eqb_spec c separator) as [->|Hne].
  - destruct (split separator s) as [|piece pieces] eqn:Hsplit.
    + destruct s; simpl in Hsplit; [discriminate |].
      destruct (Ascii.eqb a separator); [discriminate |].
      destruct (split separator s); discriminate.
    + simpl in *. rewrite IH. reflexivity.
  - destruct (split separator s) as [|piece pieces] eqn:Hsplit.
    + destruct s; simpl in Hsplit; [discriminate |].
      destruct (Ascii.eqb a separator); [discriminate |].
      destruct (split separator s); discriminate.
    + simpl in *. destruct pieces; simpl in *; rewrite <- IH; reflexivity.
Qed.

(** X6. For a connection string [scheme//authority/name], with or without a
    query part after a question mark, where neither the scheme, nor the
    authority, nor the name holds a slash or a question mark,
    [_parseDbName] returns the name; for [scheme//authority] without a path
    it returns [null], with or without a query part, as it does for
    [undefined]. *)
Theorem parseDbName_standard_connection_string
    (scheme authority name query : string) :
  occurs "/" scheme = false -> occurs "?" scheme = false ->
  occurs "/" authority = false -> occurs "?" authority = false ->
  occurs "/" name = false -> occurs "?" name = false ->
  _parseDbName (Some (scheme ++ "//" ++ authority ++ "/" ++ name)) = Some name /\
  _parseDbName (Some (scheme ++ "//" ++ authority ++ "/" ++ name ++ "?" ++ query))
  = Some name /\
  _parseDbName (Some (scheme ++ "//" ++ authority)) = None /\
  _parseDbName (Some (scheme ++ "//" ++ authority ++ "?" ++ query)) = None /\
  _parseDbName None = None.
Proof.
  intros Hs1 Hs2 Ha1 Ha2 Hn1 Hn2.
  assert (Hpath : split "/" (scheme ++ "//" ++ authority ++ "/" ++ name)
                  = [scheme; EmptyString; authority; name]).
  { change (scheme ++ "//" ++ authority ++ "/" ++ name)
      with (scheme ++ String "/" (String "/" (authority ++ String "/" name))).
    rewrite split_at_separator by exact Hs1.
    change (String "/" (authority ++ String "/" name))
      with (EmptyString ++ String "/" (authority ++ String "/" name)).
    rewrite split_at_separator by reflexivity.
    rewrite split_at_separator by exact Ha1.
    rewrite split_without_separator by exact Hn1. reflexivity. }
  assert (Hhost : split "/" (scheme ++ "//" ++ authority)
                  = [scheme; EmptyString; authority]).
  { change (scheme ++ "//" ++ authority)
      with (scheme ++ String "/" (String "/" authority)).
    rewrite split_at_separator by exact Hs1.
    change (String "/" authority) with (EmptyString ++ String "/" authority).
    rewrite split_at_separator by reflexivity.
    rewrite split_without_separator by exact Ha1. reflexivity. }
  assert (Hq1 : occurs "?" (scheme ++ "//" ++ authority ++ "/" ++ name) = false).
  { rewrite !occurs_append, Hs2, Ha2, Hn2. reflexivity. }
  assert (Hq2 : occurs "?" (scheme ++ "//" ++ authority) = false).
  { rewrite !occurs_append, Hs2, Ha2. reflexivity. }
  unfold _parseDbName. repeat split.
  - rewrite (split_without_separator "?") by exact Hq1. cbn [List.hd].
    rewrite Hpath. reflexivity.
  - replace (scheme ++ "//" ++ authority ++ "/" ++ name ++ "?" ++ query)
      with ((scheme ++ "//" ++ authority ++ "/" ++ name) ++ String "?" query)
      by (rewrite !append_associative; reflexivity).
    rewrite (split_at_separator "?") by exact Hq1. cbn [List.hd].
    rewrite Hpath. reflexivity.
  - rewrite (split_without_separator "?") by exact Hq2. cbn [List.hd].
    rewrite Hhost. reflexivity.
  - replace (scheme ++ "//" ++ authority ++ "?" ++ query)
      with ((scheme ++ "//" ++ authority) ++ String "?" query)
      by (rewrite !append_associative; reflexivity).
    rewrite (split_at_separator "?") by exact Hq2. cbn [List.hd].
    rewrite Hhost. reflexivity.
Qed.

Lemma parseDbName_standard_connection_string_witness :
  _parseDbName (Some "mongodb://db.example.org:27017/tenant42?retryWrites=true")
  = Some "tenant42" /\
  _parseDbName (Some "mongodb://db.example.org:27017") = None.
Proof.
  destruct (parseDbName_standard_connection_string
              "mongodb:" "db.example.org:27017" "tenant42" "retryWrites=true"
              eq_refl eq_refl eq_refl eq_refl eq_refl eq_refl)
    as (_ & Hname & Hnone & _).
  split; [exact Hname | exact Hnone].
Defined.

End ParseDbName.

(** ** Connecting and disconnecting the sink (mongoLog.js) *)

Section SinkLifeCycle.
Import MongoLogConnection.

Lemma closeCalls_app (es1 es2 : list Event) :
  closeCalls (es1 ++ es2) = (closeCalls es1 ++ closeCalls es2)%list.
Proof. apply flat_map_app. Qed.

Lemma connectCalls_app (es1 es2 : list Event) :
  connectCalls (es1 ++ es2) = (connectCalls es1 ++ connectCalls es2)%list.
Proof. apply flat_map_app. Qed.

Ltac case_conditions :=
  repeat match goal with
         | |- context [if ?b then _ else _] => destruct b eqn:?
         | |- context [match ?x with Some _ => _ | None => _ end] =>
             destruct x eqn:?
         end.

(** With a client at hand, shared or kept from an earlier call, [connect]
    returns and calls neither [connect] nor [close] on any client. *)
Lemma connect_with_client (this : Instance) (s : Server) (client : Client)
    (db_url : option string) :
  sharedClient this = Some client \/
  (sharedClient this = None /\ mongoClient this = Some client) ->
  config this = Some db_url ->
  fst (connect this s) = Normal tt /\
  mongoClient (fst (snd (connect this s))) = Some client /\
  ownsConnection (fst (snd (connect this s)))
  = match sharedClient this with
    | Some _ => false
    | None => ownsConnection this
    end /\
  collection (fst (snd (connect this s))) = Some (collectionName this) /\
  closeFailure (snd (snd (connect this s))) = closeFailure s /\
  connectCalls (events (snd (snd (connect this s)))) = connectCalls (events s) /\
  closeCalls (events (snd (snd (connect this s)))) = closeCalls (events s).
Proof.
  intros [Hshared | [Hshared Hclient]] Hconfig;
    unfold connect, connectClient; rewrite Hshared; cbn;
    rewrite ?Hclient, Hconfig; cbn; case_conditions; cbn;
    rewrite ?connectCalls_app, ?closeCalls_app; cbn;
    rewrite ?app_nil_r; repeat split; assumption.
Qed.

(** X7. A sink that finds a shared client on its tenant uses it and never
    closes it: [connect] returns without calling [connect] on any client,
    whatever the server and whatever the instance held before, and the
    [disconnect] that follows returns without calling [close], and clears
    the client and the collection of the instance. *)
Theorem shared_client_is_never_closed
    (this : Instance) (s : Server) (shared : Client) (db_url : option string) :
  sharedClient this = Some shared ->
  config this = Some db_url ->
  let connected := connect this s in
  let disconnected := disconnect (fst (snd connected)) (snd (snd connected)) in
  fst connected = Normal tt /\
  mongoClient (fst (snd connected)) = Some shared /\
  ownsConnection (fst (snd connected)) = false /\
  collection (fst (snd connected)) = Some (collectionName this) /\
  connectCalls (events (snd (snd connected))) = connectCalls (events s) /\
  fst disconnected = Normal tt /\
  closeCalls (events (snd (snd disconnected))) = closeCalls (events s) /\
  mongoClient (fst (snd disconnected)) = None /\
  collection (fst (snd disconnected)) = None.
Proof.
  intros Hshared Hconfig connected disconnected.
  destruct (connect_with_client this s shared db_url (or_introl Hshared) Hconfig)
    as (H1 & H2 & H3 & H4 & _ & H5 & H6).
  rewrite Hshared in H3. fold connected in H1, H2, H3, H4, H5, H6.
  repeat (split; [assumption |]).
  unfold disconnected, disconnect. rewrite H2, H3. cbn. rewrite H6.
  repeat split.
Qed.

(** X8. A sink without a shared client that connects with a [db_url] the
    server accepts owns its client: [connect] calls [connect] on a client
    made from the URL, once; the first [disconnect] calls [close] on that
    client, once, and a second [disconnect] calls nothing and returns. *)
Theorem own_client_is_closed_once
    (this : Instance) (s : Server) (c : ascii) (rest : string) :
  sharedClient this = None ->
  mongoClient this = None ->
  config this = Some (Some (String c rest)) ->
  connectFailure s = None ->
  closeFailure s = None ->
  let url := String c rest in
  let connected := connect this s in
  let once := disconnect (fst (snd connected)) (snd (snd connected)) in
  let twice := disconnect (fst (snd once)) (snd (snd once)) in
  fst connected = Normal tt /\
  mongoClient (fst (snd connected)) = Some (OwnClient url) /\
  ownsConnection (fst (snd connected)) = true /\
  connectCalls (events (snd (snd connected)))
  = (connectCalls (events s) ++ [OwnClient url])%list /\
  fst once = Normal tt /\
  closeCalls (events (snd (snd once)))
  = (closeCalls (events s) ++ [OwnClient url])%list /\
  twice = (Normal tt, snd once).
Proof.
  intros Hshared Hclient Hconfig Hconnect Hclose url connected once twice.
  assert (Hconnected :
    fst connected = Normal tt /\
    mongoClient (fst (snd connected)) = Some (OwnClient url) /\
    ownsConnection (fst (snd connected)) = true /\
    connectCalls (events (snd (snd connected)))
    = (connectCalls (events s) ++ [OwnClient url])%list /\
    closeCalls (events (snd (snd connected))) = closeCalls (events s) /\
    closeFailure (snd (snd connected)) = None).
  { unfold connected, connect, connectClient.
    rewrite Hshared, Hclient, Hconfig. cbn. rewrite Hconnect. cbn.
    case_conditions; try congruence; cbn;
      rewrite ?connectCalls_app, ?closeCalls_app; cbn;
      rewrite ?app_nil_r; repeat split; assumption. }
  destruct Hconnected as (H1 & H2 & H3 & H4 & H5 & H6).
  repeat (split; [assumption |]).
  assert (Honce : once
    = (Normal tt,
       (set_target None None (set_client None true (fst (snd connected))),
        emit (CloseCalled (OwnClient url)) (snd (snd connected))))).
  { unfold once, disconnect. rewrite H2, H3. unfold emit at 1.
    cbn [closeFailure]. rewrite H6. reflexivity. }
  rewrite Honce. cbn [fst snd]. unfold emit. cbn [events].
  rewrite closeCalls_app, H5. split; [reflexivity | split; [reflexivity |]].
  unfold twice. rewrite Honce. reflexivity.
Qed.

(** X9. After a [disconnect] that returned, every log method raises the
    not-connected error without touching the store or the console, and a
    further [disconnect] returns and changes nothing. A [disconnect] raises
    only when the instance owns its client and the server rejects the
    [close]; the instance then keeps its client and its collection. *)
Theorem disconnected_sink_rejects_writes (this : Instance) (s : Server) :
  let disconnected := disconnect this s in
  (fst disconnected = Normal tt ->
   (forall m args now w,
       MongoLog.write m args now (toSink (fst (snd disconnected))) w
       = (Throw MongoLog.notConnected, w)) /\
   disconnect (fst (snd disconnected)) (snd (snd disconnected))
   = (Normal tt, snd disconnected)) /\
  (forall err,
      fst disconnected = Throw err ->
      fst (snd disconnected) = this /\
      ownsConnection this = true /\
      is_Some (mongoClient this) /\
      closeFailure s = Some (message_of err)).
Proof.
  unfold disconnect.
  destruct (mongoClient this) as [client|] eqn:Hclient;
    [destruct (ownsConnection this) eqn:Howns;
     [unfold emit; cbn [closeFailure];
      destruct (closeFailure s) as [reason|] eqn:Hclose |] |];
    cbn; (split; [| try (intros err [= <-]; repeat split; eauto);
                    try discriminate]);
    try discriminate; intros _; split; reflexivity.
Qed.

Lemma indexRequests_app (es1 es2 : list Event) :
  indexRequests (es1 ++ es2) = (indexRequests es1 ++ indexRequests es2)%list.
Proof. apply flat_map_app. Qed.

Lemma consoleWarnings_app (es1 es2 : list Event) :
  consoleWarnings (es1 ++ es2)
  = (consoleWarnings es1 ++ consoleWarnings es2)%list.
Proof. apply flat_map_app. Qed.

(** X10. A failure of the index creation never fails [connect]: the outcome
    of [connect] and the instance it leaves are the same whatever the
    server answers to [createIndex]. When [connect] returns, it has asked
    for an index on [createdAt] expiring after the expiration days times
    86400 seconds exactly when the days are positive, and it has warned on
    the console exactly when the server rejected that index and console
    output is enabled. *)
Theorem index_failure_never_fails_connect
    (this : Instance) (s : Server) (failure : option string) :
  fst (connect this (withIndexFailure failure s)) = fst (connect this s) /\
  fst (snd (connect this (withIndexFailure failure s)))
  = fst (snd (connect this s)) /\
  (fst (connect this s) = Normal tt ->
   indexRequests (events (snd (snd (connect this s))))
   = (indexRequests (events s)
      ++ (if 0 <? expirationDays this
          then [("createdAt", expirationDays this * 86400)] else []))%list /\
   consoleWarnings (events (snd (snd (connect this s))))
   = (consoleWarnings (events s)
      ++ match indexFailure s with
         | Some reason =>
             if (0 <? expirationDays this) && logToConsole this
             then [["Failed to create TTL index on logs collection:"; reason]]
             else []
         | None => []
         end)%list).
Proof.
  unfold connect, connectClient, withIndexFailure.
  destruct (sharedClient this) as [shared|]; cbn;
    [| destruct (mongoClient this) as [client|]; cbn;
       [| destruct (truthyString (mjoin (config this))) as [url|]; cbn;
          [destruct (connectFailure s) as [reason|]; cbn |] ] ];
    try (repeat split; discriminate);
    destruct (config this) as [db_url|]; cbn;
    try (repeat split; discriminate);
    destruct (0 <? expirationDays this); cbn;
    destruct (indexFailure s) as [why|]; destruct failure as [why'|];
    destruct (logToConsole this); cbn;
    rewrite ?indexRequests_app, ?consoleWarnings_app; cbn;
    rewrite ?app_nil_r; repeat split.
Qed.

(** X11. When [client.connect()] is rejected, [connect] raises the error
    but keeps the client it made, without marking it as owned. A later
    [connect] then finds that client, does not call [connect] on any
    client, and returns with the collection set, so the log methods take
    the sink for connected; and unless the instance was marked as owner
    before, [disconnect] does not close the client. *)
Theorem failed_connect_keeps_unconnected_client
    (this : Instance) (s : Server) (c : ascii) (rest reason : string) :
  sharedClient this = None ->
  mongoClient this = None ->
  config this = Some (Some (String c rest)) ->
  connectFailure s = Some reason ->
  let failed := connect this s in
  fst failed = Throw (Error reason) /\
  mongoClient (fst (snd failed)) = Some (OwnClient (String c rest)) /\
  ownsConnection (fst (snd failed)) = ownsConnection this /\
  collection (fst (snd failed)) = collection this /\
  (forall s',
      let retried := connect (fst (snd failed)) s' in
      fst retried = Normal tt /\
      connectCalls (events (snd (snd retried))) = connectCalls (events s') /\
      collection (fst (snd retried)) = Some (collectionName this) /\
      (ownsConnection this = false ->
       fst (disconnect (fst (snd retried)) (snd (snd retried))) = Normal tt /\
       closeCalls (events (snd (snd (disconnect (fst (snd retried))
                                                (snd (snd retried))))))
       = closeCalls (events s'))).
Proof.
  intros Hshared Hclient Hconfig Hfail failed.
  assert (Hfailed : failed
    = (Throw (Error reason),
       (set_client (Some (OwnClient (String c rest))) (ownsConnection this) this,
        emit (ConnectCalled (OwnClient (String c rest)))
             (emit (ClientCreated (String c rest)) s)))).
  { unfold failed, connect, connectClient.
    rewrite Hshared, Hclient, Hconfig. cbn. rewrite Hfail. reflexivity. }
  rewrite Hfailed. cbn [fst snd].
  split; [reflexivity | split; [reflexivity | split; [reflexivity |]]].
  split; [reflexivity |].
  intros s'.
  set (kept := set_client (Some (OwnClient (String c rest)))
                          (ownsConnection this) this) in *.
  destruct (connect_with_client kept s' (OwnClient (String c rest))
              (Some (String c rest)))
    as (H1 & H2 & H3 & H4 & _ & H5 & H6).
  { right. split; [exact Hshared | reflexivity]. }
  { exact Hconfig. }
  change (sharedClient kept) with (sharedClient this) in H3.
  rewrite Hshared in H3. cbn in H3, H4.
  repeat (split; [assumption |]).
  intros Hnot. unfold disconnect. rewrite H2, H3, Hnot. cbn.
  split; [reflexivity | exact H6].
Qed.

Lemma own_client_is_closed_once_witness :
  fst (connect (fresh (Some "mongodb://localhost/app") 30) acceptingServer)
  = Normal tt /\
  db (fst (snd (connect (fresh (Some "mongodb://localhost/app") 30)
                        acceptingServer))) = Some "app" /\
  closeCalls (events (snd (snd
    (disconnect
       (fst (snd (connect (fresh (Some "mongodb://localhost/app") 30)
                          acceptingServer)))
       (snd (snd (connect (fresh (Some "mongodb://localhost/app") 30)
                          acceptingServer)))))))
  = [OwnClient "mongodb://localhost/app"].
Proof.
  destruct (own_client_is_closed_once
              (fresh (Some "mongodb://localhost/app") 30) acceptingServer
              "m" "ongodb://localhost/app" eq_refl eq_refl eq_refl eq_refl eq_refl)
    as (Hconnected & _ & _ & _ & _ & Hclosed & _).
  split; [exact Hconnected | split; [reflexivity | exact Hclosed]].
Defined.

Lemma shared_client_is_never_closed_witness :
  closeCalls (events (snd (snd
    (disconnect
       (fst (snd (connect
          (mkInstance (Some None) (Some SharedClient) None None None true true
                      "logs" 0 None) acceptingServer)))
       (snd (snd (connect
          (mkInstance (Some None) (Some SharedClient) None None None true true
                      "logs" 0 None) acceptingServer)))))))
  = [].
Proof.
  apply (shared_client_is_never_closed
           (mkInstance (Some None) (Some SharedClient) None None None true true
                       "logs" 0 None)
           acceptingServer SharedClient None eq_refl eq_refl).
Defined.

Lemma failed_connect_keeps_unconnected_client_witness :
  fst (connect (fresh (Some "mongodb://down/app") 0)
               (mkServer (Some "ECONNREFUSED") None None []))
  = Throw (Error "ECONNREFUSED") /\
  fst (connect
         (fst (snd (connect (fresh (Some "mongodb://down/app") 0)
                            (mkServer (Some "ECONNREFUSED") None None []))))
         (mkServer (Some "ECONNREFUSED") None None []))
  = Normal tt.
Proof.
  destruct (failed_connect_keeps_unconnected_client
              (fresh (Some "mongodb://down/app") 0)
              (mkServer (Some "ECONNREFUSED") None None [])
              "m" "ongodb://down/app" "ECONNREFUSED"
              eq_refl eq_refl eq_refl eq_refl) as (Hfailed & _ & _ & _ & Hretry).
  split; [exact Hfailed |].
  destruct (Hretry (mkServer (Some "ECONNREFUSED") None None []))
    as [Hretried _].
  exact Hretried.
Defined.

Lemma disconnected_sink_rejects_writes_witness :
  MongoLog.info [VString "late"] 0
    (toSink (fst (snd (disconnect
               (fst (snd (connect (fresh (Some "mongodb://localhost/app") 0)
                                  acceptingServer)))
               acceptingServer))))
    (MongoLog.mkWorld [] None [])
  = (Throw MongoLog.notConnected, MongoLog.mkWorld [] None []).
Proof.
  destruct (disconnected_sink_rejects_writes
              (fst (snd (connect (fresh (Some "mongodb://localhost/app") 0)
                                 acceptingServer)))
              acceptingServer) as [Hafter _].
  apply (Hafter eq_refl).
Defined.

End SinkLifeCycle.

(** ** What createLog changes, and when it fails (createLog.js) *)

Section CreateLogEffects.
Import CreateLog CreateLogFrame.
Context (validate : Tenant -> Validated * list ValidationError).
Context (isDebugging : bool).

(** The run of the [try] block when no index is asked for. *)
Lemma createLogTry_without_ttl (v : Validated) (w : World) :
  ttlRequested v = false ->
  unreachable w = None ->
  fst (createLogTry isDebugging v w)
  = Normal (mkLogger "info"
              [ConsoleTransport;
               MongoDBTransport (db_url v) (log_collection_name v) "info"]) /\
  collections (snd (createLogTry isDebugging v w))
  = match collections w !! log_collection_name v with
    | Some _ => collections w
    | None =>
        <[log_collection_name v :=
            mkCollection
              (if cappedRequested v
               then Some (default 0 (log_max_size v) * 1024 * 1024,
                          default 0 (log_max_docs v))
               else None)
              [idIndex]]> (collections w)
    end.
Proof.
  unfold ttlRequested, cappedRequested. intros Hno Hreach.
  unfold createLogTry. rewrite Hreach, Hno. rewrite collections_emit.
  destruct (collections w !! log_collection_name v) as [c|] eqn:Hlook.
  - rewrite bool_decide_eq_true_2 by eauto. cbn [negb].
    destruct isDebugging; cbn; split; reflexivity.
  - rewrite bool_decide_eq_false_2 by (intros [? ?]; discriminate). cbn [negb].
    unfold createCollection. rewrite collections_emit, Hlook.
    destruct (truthyBool (log_capped v) && truthyNumber (log_max_size v)
              && truthyNumber (log_max_docs v));
      destruct isDebugging; cbn; split; reflexivity.
Qed.

Lemma ttlRequested_days (v : Validated) :
  ttlRequested v = true ->
  truthyBool (log_capped v) = false /\
  exists days, log_expiration_days v = Some days /\ days <> 0.
Proof.
  unfold ttlRequested, truthyNumber. intros Httl.
  apply andb_true_iff in Httl as [Hcapped Hdays].
  apply negb_true_iff in Hcapped. split; [exact Hcapped |].
  destruct (log_expiration_days v) as [days|]; [| discriminate].
  exists days. split; [reflexivity |].
  apply negb_true_iff, Z.eqb_neq in Hdays. exact Hdays.
Qed.

(** The outcome and the collections of [createLog] in terms of the [try]
    block, for a validated configuration without conflict. *)
Lemma createLog_through_try (tenant : Tenant) (v : Validated) (w : World) :
  validate tenant = (v, []) ->
  conflicting v = false ->
  is_normal (fst (createLog validate isDebugging tenant w))
  = is_normal (fst (createLogTry isDebugging v w)) /\
  collections (snd (createLog validate isDebugging tenant w))
  = collections (snd (createLogTry isDebugging v w)) /\
  (forall logger,
      fst (createLogTry isDebugging v w) = Normal logger ->
      fst (createLog validate isDebugging tenant w) = Normal logger).
Proof.
  unfold conflicting. intros Hv Hok. unfold createLog. rewrite Hv, Hok.
  cbn [length Nat.ltb Nat.leb].
  destruct (createLogTry isDebugging v w) as [[logger|err] w'];
    cbn [fst snd is_normal].
  - repeat split. intros ? [= <-]. reflexivity.
  - destruct isDebugging; cbn; repeat split; discriminate.
Qed.

Lemma createLogTry_unreachable (v : Validated) (w : World) (reason : string) :
  unreachable w = Some reason ->
  createLogTry isDebugging v w = (Throw (Error reason), w).
Proof. intros Hdown. unfold createLogTry. rewrite Hdown. reflexivity. Qed.

Lemma grows_refl (collectionName : string) (cs : gmap string Collection) :
  grows collectionName cs cs.
Proof.
  split; [reflexivity |]. intros c Hc. exists c. repeat split; [exact Hc |].
  reflexivity.
Qed.

Lemma grows_insert_new (collectionName : string) (c : Collection)
    (cs : gmap string Collection) :
  cs !! collectionName = None ->
  grows collectionName cs (<[collectionName := c]> cs).
Proof.
  intros Hnew. split.
  - intros other Hother. apply lookup_insert_ne. congruence.
  - intros c0 Hc0. congruence.
Qed.

Lemma grows_afterTtlSetup (collectionName : string) (days : Z)
    (cs : gmap string Collection) :
  grows collectionName cs (afterTtlSetup collectionName days cs).
Proof.
  unfold afterTtlSetup.
  destruct (cs !! collectionName) as [c|] eqn:Hlook.
  - destruct (existsb isTimestampTtl (indexes c)); [apply grows_refl |].
    destruct (refusesIndex (timestampTtl days) c); [apply grows_refl |].
    split.
    + intros other Hother. apply lookup_insert_ne. congruence.
    + intros c0 Hc0. rewrite Hlook in Hc0. injection Hc0 as <-.
      eexists. split; [apply lookup_insert_eq |].
      split; [reflexivity |]. cbn. apply prefix_app_r. reflexivity.
  - apply grows_insert_new. exact Hlook.
Qed.

(** X12. [createLog] changes no collection but the log collection, and a log
    collection that exists is never created anew: after the call, whatever
    the tenant, the store and the outcome, every other collection is as
    before, and an existing log collection has the creation options it had
    (a capped collection stays capped with its limits, an uncapped one stays
    uncapped whatever the configuration asks for) and its former indexes,
    in order, possibly followed by a new one. *)
Theorem createLog_only_extends_log_collection (tenant : Tenant) (w : World) :
  grows (log_collection_name (fst (validate tenant)))
        (collections w)
        (collections (snd (createLog validate isDebugging tenant w))).
Proof.
  destruct (validate tenant) as [v errors] eqn:Hv. cbn [fst].
  destruct errors as [|e errors].
  - destruct (conflicting v) eqn:Hconflict.
    + unfold createLog. rewrite Hv. unfold conflicting in Hconflict.
      cbn [length Nat.ltb Nat.leb]. rewrite Hconflict. apply grows_refl.
    + destruct (createLog_through_try tenant v w Hv Hconflict) as (_ & -> & _).
      destruct (unreachable w) as [reason|] eqn:Hreach.
      * rewrite (createLogTry_unreachable v w reason Hreach). apply grows_refl.
      * destruct (ttlRequested v) eqn:Httl.
        -- destruct (ttlRequested_days v Httl) as (Hcapped & days & Hdays & Hnz).
           destruct (createLogTry_ttl isDebugging v days w Hcapped Hdays Hnz Hreach)
             as (-> & _).
           apply grows_afterTtlSetup.
        -- destruct (createLogTry_without_ttl v w Httl Hreach) as (_ & ->).
           destruct (collections w !! log_collection_name v) eqn:Hlook;
             [apply grows_refl | apply grows_insert_new; exact Hlook].
  - unfold createLog. rewrite Hv. apply grows_refl.
Qed.

(** X13. Each of four conditions makes [createLog] raise and leave every
    collection as it was: the validation reports an error; the
    configuration asks for a capped collection and for expiry; the server
    refuses the connection; or expiry is asked for, the log collection
    exists without an index on [timestamp] named [timestamp_ttl], and the
    store refuses the new index because another index has that name or that
    key. *)
Theorem createLog_raises_without_changes
    (tenant : Tenant) (v : Validated) (errors : list ValidationError) (w : World) :
  validate tenant = (v, errors) ->
  errors <> [] \/ conflicting v = true \/ is_Some (unreachable w)
  \/ indexRefused v w = true ->
  is_normal (fst (createLog validate isDebugging tenant w)) = false /\
  collections (snd (createLog validate isDebugging tenant w)) = collections w.
Proof.
  intros Hv Hcase. destruct errors as [|e errors].
  - destruct (conflicting v) eqn:Hconflict.
    + unfold createLog. rewrite Hv. unfold conflicting in Hconflict.
      cbn [length Nat.ltb Nat.leb]. rewrite Hconflict. split; reflexivity.
    + destruct (createLog_through_try tenant v w Hv Hconflict) as (-> & -> & _).
      destruct (unreachable w) as [reason|] eqn:Hreach.
      * rewrite (createLogTry_unreachable v w reason Hreach). split; reflexivity.
      * destruct Hcase as [Hcase | [Hcase | [[reason Hcase] | Hcase]]];
          [congruence | discriminate | discriminate |].
        unfold indexRefused in Hcase.
        apply andb_true_iff in Hcase as [Httl Hrefused].
        destruct (ttlRequested_days v Httl) as (Hcapped & days & Hdays & Hnz).
        destruct (createLogTry_ttl isDebugging v days w Hcapped Hdays Hnz Hreach)
          as (-> & _ & ->).
        rewrite Hdays in Hrefused. cbn [default id] in Hrefused.
        unfold afterTtlSetup.
        destruct (collections w !! log_collection_name v) as [c|];
          [| discriminate].
        apply andb_true_iff in Hrefused as [Hmissing Hrefused].
        apply negb_true_iff in Hmissing. rewrite Hmissing, Hrefused.
        split; reflexivity.
  - unfold createLog. rewrite Hv. split; reflexivity.
Qed.

(** X14. On a store without the log collection, with a validated
    configuration that asks for no expiry: whenever [createLog] returns, it
    returns its logger and has created the collection with the [_id] index
    alone: capped, with [log_max_size] megabytes in bytes and
    [log_max_docs] documents, when [log_capped] is true and both limits are
    positive; uncapped when [log_capped] is not true or one of the limits
    is missing or zero. So a configuration with [log_capped] true but
    without one of the limits gets an uncapped collection and no error. *)
Theorem createLog_creates_collection_as_configured
    (tenant : Tenant) (v : Validated) (w : World) :
  validate tenant = (v, []) ->
  truthyNumber (log_expiration_days v) = false ->
  collections w !! log_collection_name v = None ->
  let result := createLog validate isDebugging tenant w in
  is_normal (fst result) = true ->
  fst result
  = Normal (mkLogger "info"
              [ConsoleTransport;
               MongoDBTransport (db_url v) (log_collection_name v) "info"]) /\
  (forall size docs,
      log_capped v = Some true ->
      log_max_size v = Some size -> 0 < size ->
      log_max_docs v = Some docs -> 0 < docs ->
      collections (snd result)
      = <[log_collection_name v :=
            mkCollection (Some (size * 1024 * 1024, docs)) [idIndex]]>
          (collections w)) /\
  (log_capped v <> Some true \/ truthyNumber (log_max_size v) = false
   \/ truthyNumber (log_max_docs v) = false ->
   collections (snd result)
   = <[log_collection_name v := mkCollection None [idIndex]]> (collections w)).
Proof.
  intros Hv Hdays Hlook result Hreturns.
  assert (Hconflict : conflicting v = false)
    by (unfold conflicting; rewrite Hdays; apply andb_false_r).
  assert (Httl : ttlRequested v = false)
    by (unfold ttlRequested; rewrite Hdays; apply andb_false_r).
  destruct (createLog_through_try tenant v w Hv Hconflict) as (Hnormal & Hcs & Hlogger).
  fold result in Hnormal, Hcs, Hlogger.
  assert (Hreach : unreachable w = None).
  { destruct (unreachable w) as [reason|] eqn:Hdown; [| reflexivity].
    rewrite (createLogTry_unreachable v w reason Hdown) in Hnormal.
    rewrite Hreturns in Hnormal. discriminate. }
  destruct (createLogTry_without_ttl v w Httl Hreach) as (Hfst & Htry).
  rewrite Hlook in Htry.
  split; [apply Hlogger; exact Hfst |]. rewrite Hcs, Htry. split.
  - intros size docs Hcapped Hsize Hs Hdocs Hd. unfold cappedRequested.
    rewrite Hcapped, Hsize, Hdocs. cbn.
    assert (Hs0 : (size =? 0) = false) by (apply Z.eqb_neq; lia).
    assert (Hd0 : (docs =? 0) = false) by (apply Z.eqb_neq; lia).
    rewrite Hs0, Hd0. reflexivity.
  - intros Hnot. replace (cappedRequested v) with false; [reflexivity |].
    symmetry. unfold cappedRequested. destruct Hnot as [Hc | [Hs | Hd]].
    + destruct (log_capped v) as [[|]|]; try reflexivity. congruence.
    + rewrite Hs. rewrite andb_false_r. reflexivity.
    + rewrite Hd. apply andb_false_r.
Qed.

End CreateLogEffects.

Section CreateLogEffectsExamples.
Import CreateLog CreateLogFrame.

Lemma createLog_raises_without_changes_witness :
  schemaValidate ttlOnly
  = (mkValidated "mongodb://localhost/app" "logs" (Some 30) None None None, []) /\
  indexRefused (fst (schemaValidate ttlOnly)) otherTtlStore = true /\
  is_normal (fst (createLog schemaValidate false ttlOnly otherTtlStore)) = false /\
  collections (snd (createLog schemaValidate false ttlOnly otherTtlStore))
  = collections otherTtlStore.
Proof.
  split; [reflexivity | split; [reflexivity |]].
  apply (createLog_raises_without_changes schemaValidate false ttlOnly _ []
           otherTtlStore eq_refl).
  right. right. right. reflexivity.
Defined.

Lemma createLog_creates_collection_as_configured_witness :
  schemaValidate cappedWithoutLimits
  = (mkValidated "mongodb://localhost/app" "logs" None (Some true) None None, []) /\
  is_normal (fst (createLog schemaValidate false cappedWithoutLimits emptyStore))
  = true /\
  collections (snd (createLog schemaValidate false cappedWithoutLimits emptyStore))
  = <["logs" := mkCollection None [idIndex]]> ∅.
Proof.
  split; [reflexivity |]. split; [reflexivity |].
  destruct (createLog_creates_collection_as_configured schemaValidate false
              cappedWithoutLimits _ emptyStore eq_refl eq_refl
              (lookup_empty _) eq_refl) as (_ & _ & Huncapped).
  apply Huncapped. right. left. reflexivity.
Defined.

End CreateLogEffectsExamples.

(** ** Failures of createDB and of its clean-up (createDB.js) *)

Section CreateDBFailures.
Import CreateDB CreateDBFrame.
Context (validate : Tenant -> Validated * list ValidationError).
Context (isDebugging isTesting : bool).

Lemma dropCalls_app (es1 es2 : list Event) :
  dropCalls (es1 ++ es2) = (dropCalls es1 ++ dropCalls es2)%list.
Proof. apply flat_map_app. Qed.

(** X15. [createDB] raises in exactly three cases: the validation reports an
    error, the server refuses the connection, or the testing flag is set and
    the server refuses to list its collections. Whenever it raises it has
    called [drop] on no collection and the collections are as before; past
    validation the message of the error starts with "Failed to connect to
    database: ", also when the connection itself was opened. *)
Theorem createDB_raises_iff
    (tenant : Tenant) (v : Validated) (errors : list ValidationError) (w : World) :
  validate tenant = (v, errors) ->
  let result := createDB validate isDebugging isTesting tenant w in
  (is_normal (fst result) = false
   <-> errors <> [] \/ is_Some (unreachable w)
       \/ (isTesting = true /\ is_Some (listFailure w))) /\
  (is_normal (fst result) = false ->
   collections (snd result) = collections w /\
   dropCalls (events (snd result)) = dropCalls (events w)) /\
  (errors = [] ->
   forall err,
     fst result = Throw err ->
     exists reason, err = Error ("Failed to connect to database: " ++ reason)).
Proof.
  intros Hv. unfold createDB, createDBTry, dropAllCollections. rewrite Hv.
  destruct errors as [|e errors]; cbn [length Nat.ltb Nat.leb].
  - destruct (unreachable w) as [down|] eqn:Hreach.
    + destruct isDebugging; cbn; unfold emit; cbn;
        rewrite ?dropCalls_app; cbn; rewrite ?app_nil_r;
        (split; [split; [eauto | reflexivity] |]);
        (split; [intros _; split; reflexivity |]);
        intros _ err [= <-]; eauto.
    + destruct isTesting.
      * destruct (listFailure w) as [denied|] eqn:Hlist.
        -- destruct isDebugging; unfold emit; cbn; rewrite Hlist; cbn;
             rewrite ?dropCalls_app; cbn; rewrite ?app_nil_r;
             (split; [split; [eauto | reflexivity] |]);
             (split; [intros _; split; reflexivity |]);
             intros _ err [= <-]; eauto.
        -- destruct isDebugging; unfold emit; cbn; rewrite Hlist; cbn;
             (split; [split;
                [discriminate
                | intros [? | [[? ?] | [_ [? ?]]]]; congruence] |]);
             (split; [discriminate |]); intros _ err; discriminate.
      * destruct isDebugging; unfold emit; cbn;
          (split; [split;
             [discriminate
             | intros [? | [[? ?] | [? _]]]; congruence] |]);
          (split; [discriminate |]); intros _ err; discriminate.
  - cbn. split; [split; [intros _; left; discriminate | reflexivity] |].
    split; [intros _; split; reflexivity |]. intros ?; discriminate.
Qed.

Lemma prefix_iff (needle haystack : string) :
  String.prefix needle haystack = true <-> exists after, haystack = needle ++ after.
Proof.
  revert haystack. induction needle as [|c needle IH]; intros haystack.
  - split; [intros _; exists haystack; reflexivity |].
    intros _. destruct haystack; reflexivity.
  - destruct haystack as [|c' haystack]; cbn.
    + split; [discriminate | intros [after Hafter]; discriminate].
    + destruct (ascii_dec c c') as [->|Hne].
      * rewrite IH. split; intros [after Hafter]; exists after.
        -- rewrite Hafter. reflexivity.
        -- simpl in Hafter. injection Hafter as Hafter. exact Hafter.
      * split; [discriminate |]. intros [after Hafter].
        simpl in Hafter. injection Hafter as Hc _. congruence.
Qed.

(** [includes] is the test of a regular expression that is a literal text:
    it holds exactly when the text occurs somewhere in the string. *)
Lemma includes_iff (needle haystack : string) :
  includes needle haystack = true
  <-> exists before after, haystack = before ++ needle ++ after.
Proof.
  induction haystack as [|c haystack IH].
  - cbn [includes]. rewrite orb_false_r, prefix_iff. split.
    + intros [after Hafter]. exists EmptyString, after. exact Hafter.
    + intros (before & after & Hsplit). destruct before; [eauto |].
      discriminate.
  - cbn [includes]. rewrite orb_true_iff, prefix_iff, IH. split.
    + intros [[after Hafter] | (before & after & Hsplit)].
      * exists EmptyString, after. exact Hafter.
      * exists (String c before), after. rewrite Hsplit. reflexivity.
    + intros (before & after & Hsplit). destruct before as [|c' before].
      * left. exists after. exact Hsplit.
      * right. simpl in Hsplit. injection Hsplit as _ Hrest.
        exists before, after. exact Hrest.
Qed.

Lemma dropWarning_iff (c : Collection) (text : string) :
  text ∈ dropWarning c
  <-> exists reason,
        dropFailure c = Some reason /\ benign reason = false /\
        text = "Failed to drop collection " ++ collectionName c
               ++ ": " ++ reason.
Proof.
  unfold dropWarning. destruct (dropFailure c) as [reason|].
  - destruct (benign reason) eqn:Hbenign.
    + split; [intros Hin; inversion Hin |].
      intros (r & [= <-] & Hr & _). congruence.
    + rewrite list_elem_of_singleton. split.
      * intros ->. exists reason. split; [reflexivity |].
        split; [exact Hbenign | reflexivity].
      * intros (r & [= <-] & _ & ->). reflexivity.
  - split; [intros Hin; inversion Hin | intros (r & Hr & _); discriminate].
Qed.

(** The warning of one turn of the loop, if any. *)
Lemma warnings_dropOneEvents (cs : list Collection) :
  warnings (flat_map dropOneEvents cs)
  = flat_map dropWarning cs.
Proof.
  unfold warnings. induction cs as [|c cs IH]; [reflexivity |].
  cbn [flat_map]. rewrite flat_map_app, IH. f_equal.
  unfold dropOneEvents, dropWarning, benign.
  destruct (dropFailure c) as [reason|]; cbn.
  - rewrite <- negb_orb.
    destruct (String.eqb reason "ns not found"
              || includes "a background operation is currently running" reason);
      reflexivity.
  - reflexivity.
Qed.

(** X16. [dropAllCollections] never raises because a drop fails: once the
    server has listed its collections it returns, whatever the server
    answers to the drops. The collections left are those that were there
    and whose name is not among the ones the server dropped. For each
    rejected drop it logs one warning, in order, unless the message of the
    error is "ns not found" or contains "a background operation is
    currently running"; a successful drop gives no warning. *)
Theorem dropAllCollections_swallows_drop_failures (w : World) :
  listFailure w = None ->
  let result := dropAllCollections w in
  fst result = Normal tt /\
  (forall c,
      c ∈ collections (snd result)
      <-> c ∈ collections w /\ collectionName c ∉ droppedNames (collections w)) /\
  warnings (events (snd result))
  = (warnings (events w)
     ++ flat_map dropWarning (collections w))%list /\
  (forall c text,
      text ∈ dropWarning c
      <-> exists reason,
            dropFailure c = Some reason /\ benign reason = false /\
            text = "Failed to drop collection " ++ collectionName c
                   ++ ": " ++ reason) /\
  (forall reason,
      benign reason = true
      <-> reason = "ns not found"
          \/ exists before after,
               reason = before ++ "a background operation is currently running"
                        ++ after).
Proof.
  intros Hlist. unfold dropAllCollections. rewrite Hlist. cbn [fst snd].
  split; [reflexivity | split; [| split; [| split]]].
  - intros c. rewrite dropAll_collections, list_elem_of_filter. tauto.
  - rewrite dropAll_events. unfold warnings at 1. rewrite flat_map_app.
    fold (warnings (events w)).
    fold (warnings (flat_map dropOneEvents (collections w))).
    rewrite warnings_dropOneEvents. reflexivity.
  - apply dropWarning_iff.
  - intros reason. unfold benign.
    rewrite orb_true_iff, String.eqb_eq, includes_iff. reflexivity.
Qed.

End CreateDBFailures.

Section CreateDBFailuresExamples.
Import CreateDB CreateDBFrame.

Lemma createDB_raises_iff_witness :
  schemaValidate localTenant = (mkValidated "mongodb://localhost/test", []) /\
  createDB schemaValidate false true localTenant unlistable
  = (Throw (Error "Failed to connect to database: not authorized"),
     mkWorld None (Some "not authorized") [mkCollection "users" None]
       [Connected "mongodb://localhost/test"; ListenerAdded "disconnected"]) /\
  collections (snd (createDB schemaValidate false true localTenant unlistable))
  = collections unlistable.
Proof.
  split; [reflexivity | split; [reflexivity |]].
  destruct (createDB_raises_iff schemaValidate false true localTenant _ []
              unlistable eq_refl) as (Hiff & Hkeeps & _).
  apply Hkeeps. apply Hiff. right. right. split; [reflexivity | eauto].
Defined.

Lemma dropAllCollections_swallows_drop_failures_witness :
  listFailure stubborn = None /\
  fst (dropAllCollections stubborn) = Normal tt /\
  map collectionName (collections (snd (dropAllCollections stubborn)))
  = ["a"; "b"; "c"] /\
  warnings (events (snd (dropAllCollections stubborn)))
  = ["Failed to drop collection c: not authorized"].
Proof.
  split; [reflexivity |].
  destruct (dropAllCollections_swallows_drop_failures stubborn eq_refl)
    as (Hreturns & _ & Hwarnings & _).
  split; [exact Hreturns | split; [reflexivity |]].
  rewrite Hwarnings. reflexivity.
Defined.

End CreateDBFailuresExamples.

(** ** Registering models and the life cycle of the database service
       (mongoDatabase.js, mongoModel.js) *)

Section RegistryEffects.
Import MongoDatabase.
Context {Schema Model Connection : Type}.
Context (connection_model :
  Connection -> string -> Schema -> completion JsError Model).

(** X17. [registerModel] changes the registry only when it returns: if it
    raises, for whatever reason, the database is as before. It returns
    exactly when the name is free, the database is connected and mongoose
    compiles the schema; then [getModel] finds the compiled model under the
    name, every other name is bound as before, and the connection is
    unchanged. *)
Theorem registerModel_changes_registry_only_on_success
    (name : string) (schema : Schema) (db : Database) :
  let result := registerModel connection_model name schema db in
  (forall err, fst result = Throw err -> snd result = db) /\
  (fst result = Normal tt
   <-> getModel name db = None /\
       exists connection,
         mongooseConnection db = Some connection /\
         is_normal (connection_model connection name schema) = true) /\
  (fst result = Normal tt ->
   exists connection model,
     mongooseConnection db = Some connection /\
     connection_model connection name schema = Normal model /\
     getModel name (snd result) = Some model /\
     (forall other, other <> name ->
                    getModel other (snd result) = getModel other db) /\
     mongooseConnection (snd result) = mongooseConnection db).
Proof.
  unfold registerModel, getModel.
  destruct (models db !! name) as [bound|] eqn:Hname.
  - cbn. split; [reflexivity |]. split; [| discriminate].
    split; [discriminate | intros [? _]; discriminate].
  - destruct (mongooseConnection db) as [connection|] eqn:Hconn.
    + destruct (connection_model connection name schema) as [model|err] eqn:Hc.
      * cbn. split; [discriminate |]. split.
        -- split; [| reflexivity]. intros _. split; [reflexivity |].
           exists connection. rewrite Hc. split; reflexivity.
        -- intros _. exists connection, model.
           split; [reflexivity | split; [exact Hc |]].
           split; [apply lookup_insert_eq |].
           split; [| reflexivity].
           intros other Hother. apply lookup_insert_ne. congruence.
      * cbn. split; [reflexivity |]. split; [| discriminate].
        split; [discriminate |].
        intros [_ (c & [= <-] & Hok)]. rewrite Hc in Hok. discriminate.
    + cbn. split; [reflexivity |]. split; [| discriminate].
      split; [discriminate |]. intros [_ (c & Hsome & _)]. discriminate.
Qed.

(** X18. Two model classes with the same model name share one model: once a
    construction has returned, every later construction under that name,
    by any class and with any schema, returns the same underlying model and
    leaves the database as it is, so the schema of the later class is never
    compiled. *)
Theorem constructor_shares_first_model
    (className className' name : string) (schema schema' : Schema)
    (db db1 : Database) (underlying : option Model) :
  MongooseModel_constructor connection_model className name (Some schema) db
  = (Normal underlying, db1) ->
  is_Some underlying /\
  getModel name db1 = underlying /\
  MongooseModel_constructor connection_model className' name (Some schema') db1
  = (Normal underlying, db1).
Proof.
  unfold MongooseModel_constructor, getModel.
  destruct (models db !! name) as [bound|] eqn:Hname.
  - intros [= <- <-]. rewrite Hname. repeat split. eauto.
  - destruct (registerModel connection_model name schema db) as [[[]|err] db']
      eqn:Hregister; [| discriminate].
    intros [= <- <-].
    destruct (registerModel_success connection_model name schema db db' Hregister)
      as (connection & model & _ & _ & _ & ->).
    cbn [models]. rewrite lookup_insert_eq. repeat split. eauto.
Qed.

End RegistryEffects.

Section ServiceLifeCycle.
Import MongoDatabase MongoDatabaseService.
Context {Schema Model Connection : Type}.
Context (connection_model :
  Connection -> string -> Schema -> completion JsError Model).
Context (createConnection : string -> completion JsError Connection).
Context (closeConnection : Connection -> completion JsError unit).

(** X19. [disconnect] does not forget the connection: whatever happens, the
    private connection and the registry are as before, so the getter
    [connection] still returns the closed connection; only the connection
    of the base class is reset, when [close] succeeded. A second
    [disconnect] therefore calls [close] on the same connection again, and
    [registerModel] keeps compiling against the closed connection. On a
    service that never connected, [disconnect] does nothing. *)
Theorem disconnect_keeps_private_connection
    (this : Service (Model := Model) (Connection := Connection)) :
  let once := disconnect closeConnection this in
  let twice := disconnect closeConnection (snd once) in
  database (snd once) = database this /\
  connection (snd once) = connection this /\
  (forall name schema,
      registerModel connection_model name schema (database (snd once))
      = registerModel connection_model name schema (database this)) /\
  (forall c,
      connection this = Some c ->
      closeCalls (snd twice) = (closeCalls this ++ [c; c])%list /\
      (closeConnection c = Normal tt ->
       fst once = Normal tt /\ baseConnection (snd once) = None) /\
      (forall err,
          closeConnection c = Throw err ->
          fst once = Throw err /\
          baseConnection (snd once) = baseConnection this)) /\
  (connection this = None -> once = (Normal tt, this)).
Proof.
  unfold disconnect, connection.
  destruct (mongooseConnection (database this)) as [c|] eqn:Hconn; cbn.
  - destruct (closeConnection c) as [[]|err] eqn:Hclose; cbn;
      rewrite Hconn, Hclose; cbn;
      (split; [reflexivity |]); (split; [reflexivity |]);
      (split; [reflexivity |]); (split; [| discriminate]);
      intros c' [= <-]; rewrite Hclose, <- app_assoc;
      repeat split; try discriminate; try congruence.
  - rewrite Hconn. repeat split; discriminate.
Qed.

(** X20. The registry outlives the connection: [connect] and [disconnect]
    never change the registered models, whether they return or raise. A
    model registered before a disconnect and a new connect is therefore
    still returned by [getModel] afterwards, still bound to the old
    connection, and registering its name on the new connection fails with
    the duplicate-model error. *)
Theorem models_survive_reconnect
    (this : Service (Model := Model) (Connection := Connection)) :
  models (database (snd (connect createConnection this)))
  = models (database this) /\
  models (database (snd (disconnect closeConnection this)))
  = models (database this) /\
  (forall name first schema,
      getModel name (database this) = Some first ->
      let reconnected :=
        snd (connect createConnection (snd (disconnect closeConnection this))) in
      getModel name (database reconnected) = Some first /\
      registerModel connection_model name schema (database reconnected)
      = (Throw (alreadyRegistered name), database reconnected)).
Proof.
  assert (Hconnect : forall s : Service (Model := Model) (Connection := Connection),
             models (database (snd (connect createConnection s)))
             = models (database s)).
  { intros s. unfold connect. destruct (db_url s) as [[|c rest]|]; cbn;
      try reflexivity.
    destruct (createConnection (String c rest)); reflexivity. }
  assert (Hdisconnect : forall s : Service (Model := Model) (Connection := Connection),
             models (database (snd (disconnect closeConnection s)))
             = models (database s)).
  { intros s. unfold disconnect.
    destruct (mongooseConnection (database s)) as [c|]; cbn; [| reflexivity].
    destruct (closeConnection c); reflexivity. }
  split; [apply Hconnect | split; [apply Hdisconnect |]].
  intros name first schema Hbound reconnected.
  assert (Hstill : getModel name (database reconnected) = Some first).
  { unfold getModel, reconnected in *. rewrite Hconnect, Hdisconnect.
    exact Hbound. }
  split; [exact Hstill |].
  apply (registerModel_bound connection_model name schema first). exact Hstill.
Qed.

(** X24. [connect] raises exactly when [db_url] is missing or empty, or
    when mongoose rejects the connection, and then the service is as
    before. When it returns, the getter and the base class hold the new
    connection. It never closes a connection: on a service that is
    already connected the new connection replaces the old one, which stays
    open. *)
Theorem connect_replaces_connection_without_closing
    (this : Service (Model := Model) (Connection := Connection)) :
  let result := connect createConnection this in
  (forall err, fst result = Throw err -> snd result = this) /\
  (fst result = Normal tt
   <-> exists c rest fresh,
         db_url this = Some (String c rest) /\
         createConnection (String c rest) = Normal fresh) /\
  (forall c rest fresh,
      db_url this = Some (String c rest) ->
      createConnection (String c rest) = Normal fresh ->
      connection (snd result) = Some fresh /\
      baseConnection (snd result) = Some fresh) /\
  closeCalls (snd result) = closeCalls this.
Proof.
  unfold connect, connection.
  destruct (db_url this) as [[|c rest]|] eqn:Hurl; cbn.
  - repeat split; try discriminate; try reflexivity.
    intros (c & rest & fresh & Hc & _). discriminate.
  - destruct (createConnection (String c rest)) as [fresh|err] eqn:Hcreate; cbn.
    + split; [discriminate |]. split; [split; [eauto | reflexivity] |].
      split; [| reflexivity].
      intros c' rest' fresh' [= <- <-] Hfresh. rewrite Hcreate in Hfresh.
      injection Hfresh as <-. split; reflexivity.
    + split; [reflexivity |]. split.
      * split; [discriminate |].
        intros (c' & rest' & fresh & [= <- <-] & Hfresh). congruence.
      * split; [| reflexivity]. intros c' rest' fresh' [= <- <-] Hfresh.
        congruence.
  - repeat split; try discriminate; try reflexivity.
    intros (c & rest & fresh & Hc & _). discriminate.
Qed.

End ServiceLifeCycle.

Section RegistryEffectsExamples.
Import MongoDatabase.

Lemma constructor_shares_first_model_witness :
  MongooseModel_constructor pairModel "UserModel" "user" (Some "v1")
    (mkDatabase (Some tt) ∅)
  = (Normal (Some ("user", "v1")), oneUser) /\
  MongooseModel_constructor pairModel "AccountModel" "user" (Some "v2") oneUser
  = (Normal (Some ("user", "v1")), oneUser).
Proof.
  assert (Hfirst :
    MongooseModel_constructor pairModel "UserModel" "user" (Some "v1")
      (mkDatabase (Some tt) ∅)
    = (Normal (Some ("user", "v1")), oneUser)) by reflexivity.
  split; [exact Hfirst |].
  apply (constructor_shares_first_model pairModel "UserModel" "AccountModel"
           "user" "v1" "v2" _ _ _ Hfirst).
Defined.

End RegistryEffectsExamples.

(** ** Closing connections and loggers (closeDB.js, closeLog.js) *)

Section Closing.
Import CloseDB.

(** X21. [closeDB] never raises, whatever it is given: for a value that is
    missing or has no [close] function it logs one warning and calls
    nothing; for a connection it calls [close] once and logs one line, an
    information when the close resolved and an error line carrying the
    message when it was rejected. *)
Theorem closeDB_never_raises (connection : Argument) (events : list Event) :
  fst (closeDB connection events) = Normal tt /\
  exists line,
    snd (closeDB connection events)
    = (events
       ++ match connection with
          | Closable name _ => [CloseCalled name]
          | _ => []
          end
       ++ [line])%list /\
    match connection with
    | Falsy | NotClosable =>
        line = LogWarn "closeDB: Invalid or missing connection instance."
    | Closable name None =>
        line = LogInfo ("Database connection " ++ dquote ++ name ++ dquote
                        ++ " closed.")
    | Closable name (Some reason) =>
        line = LogError ("Error closing database connection " ++ dquote ++ name
                         ++ dquote ++ ": " ++ reason)
    end.
Proof.
  destruct connection as [| |name [reason|]]; cbn; (split; [reflexivity |]);
    eexists; (split; [| reflexivity]); rewrite <- ?app_assoc; reflexivity.
Qed.

End Closing.

Section ClosingLoggers.
Import CreateLog CloseLog.
Context (closeCallback : Transport -> Callback).
Context (hasClose : Transport -> bool).

Lemma closeTransports_from (ts : list Transport) :
  forall outcomes events,
    fold_left
      (fun acc t =>
         if isMongoDB t && hasClose t
         then ((fst acc ++ [closeCallback t])%list,
               (snd acc ++ [CloseCalled t])%list)
         else acc)
      ts (outcomes, events)
    = ((outcomes
        ++ map closeCallback
             (List.filter (fun t => isMongoDB t && hasClose t) ts))%list,
       (events
        ++ map CloseCalled
             (List.filter (fun t => isMongoDB t && hasClose t) ts))%list).
Proof.
  induction ts as [|t ts IH]; intros outcomes events; cbn [fold_left List.filter].
  - cbn. rewrite !app_nil_r. reflexivity.
  - destruct (isMongoDB t && hasClose t); cbn [fst snd map].
    + rewrite IH, <- !app_assoc. reflexivity.
    + apply IH.
Qed.

Lemma closeCalls_log_app (es1 es2 : list Event) :
  closeCalls (es1 ++ es2) = (closeCalls es1 ++ closeCalls es2)%list.
Proof. apply flat_map_app. Qed.

Lemma closeCalls_map_CloseCalled (ts : list Transport) :
  closeCalls (map CloseCalled ts) = ts.
Proof.
  induction ts as [|t ts IH]; [reflexivity |]. cbn. f_equal. exact IH.
Qed.

Lemma firstFailure_none (outcomes : list Callback) :
  firstFailure outcomes = None <->
  Forall (fun o => forall reason, o <> Called (Some reason)) outcomes.
Proof.
  induction outcomes as [|o outcomes IH]; cbn.
  - split; [constructor | reflexivity].
  - destruct o as [|[reason|]].
    + rewrite IH. split.
      * intros Hall. constructor; [discriminate | exact Hall].
      * intros Hall. inversion Hall. assumption.
    + split; [discriminate |].
      intros Hall. inversion Hall as [|? ? Hhead _]. destruct (Hhead reason eq_refl).
    + rewrite IH. split.
      * intros Hall. constructor; [discriminate | exact Hall].
      * intros Hall. inversion Hall. assumption.
Qed.

Lemma firstFailure_some (outcomes : list Callback) (reason : string) :
  firstFailure outcomes = Some reason -> In (Called (Some reason)) outcomes.
Proof.
  induction outcomes as [|o outcomes IH]; cbn.
  - discriminate.
  - destruct o as [|[r|]].
    + intros Hrest. right. apply IH. exact Hrest.
    + intros [= ->]. left. reflexivity.
    + intros Hrest. right. apply IH. exact Hrest.
Qed.

Lemma promiseAll_fulfilled (outcomes : list Callback) :
  promiseAll outcomes = Fulfilled <-> Forall (fun o => o = Called None) outcomes.
Proof.
  unfold promiseAll. induction outcomes as [|o outcomes IH]; cbn.
  - split; [constructor | reflexivity].
  - destruct o as [|[reason|]]; cbn.
    + split.
      * destruct (firstFailure outcomes); discriminate.
      * intros Hall. inversion Hall. discriminate.
    + split; [discriminate | intros Hall; inversion Hall; discriminate].
    + rewrite IH. split.
      * intros Hall. constructor; [reflexivity | exact Hall].
      * intros Hall. inversion Hall. assumption.
Qed.

Lemma promiseAll_pending (outcomes : list Callback) :
  promiseAll outcomes = Pending <->
  firstFailure outcomes = None /\ In NeverCalled outcomes.
Proof.
  unfold promiseAll. destruct (firstFailure outcomes) as [reason|].
  - split; [discriminate | intros [? _]; discriminate].
  - destruct (forallb isCalled outcomes) eqn:Hall.
    + split; [discriminate |]. intros [_ Hin].
      rewrite forallb_forall in Hall. specialize (Hall _ Hin). discriminate.
    + split; [| reflexivity]. intros _. split; [reflexivity |].
      induction outcomes as [|o outcomes IH]; [discriminate |].
      cbn in Hall. destruct o as [|err]; [left; reflexivity |].
      right. apply IH. exact Hall.
Qed.

(** X22. [closeLog] never raises, but it does not always return. Given a
    logger it calls [close] once on each MongoDB transport that has a
    [close] function, in their order, and on no other transport. When one
    of these transports calls back with an error, it logs one error line
    with the message of such a transport and returns; when all of them call
    back without an error, it logs that the transports are closed and
    returns; otherwise, when a transport never calls back and none reports
    an error, it never settles and logs nothing after the calls. Given no
    logger it logs a warning, calls nothing and returns. *)
Theorem closeLog_closes_mongodb_transports
    (logger : option Logger) (events : list Event) :
  let closed :=
    match logger with
    | Some logger =>
        List.filter (fun t => isMongoDB t && hasClose t) (transports logger)
    | None => []
    end in
  let result := closeLog closeCallback hasClose logger events in
  (forall err, fst result <> Some (Throw err)) /\
  closeCalls (snd result) = (closeCalls events ++ closed)%list /\
  match logger with
  | None =>
      result
      = (Some (Normal tt),
         (events ++ [LogWarn "closeLog: Invalid or missing logger instance."])%list)
  | Some _ =>
      (exists t reason,
          In t closed /\ closeCallback t = Called (Some reason) /\
          result
          = (Some (Normal tt),
             (events ++ map CloseCalled closed
              ++ [LogError ("Error closing MongoDB logger: " ++ reason)])%list))
      \/ (Forall (fun t => closeCallback t = Called None) closed /\
          result
          = (Some (Normal tt),
             (events ++ map CloseCalled closed
              ++ [LogInfo "MongoDB logger transport(s) closed."])%list))
      \/ (Forall (fun t => forall reason, closeCallback t <> Called (Some reason))
                 closed /\
          (exists t, In t closed /\ closeCallback t = NeverCalled) /\
          result = (None, (events ++ map CloseCalled closed)%list))
  end.
Proof.
  destruct logger as [logger|]; cbn zeta.
  - unfold closeLog, closeLogTry, closeTransports.
    rewrite closeTransports_from. cbn [app].
    set (closed := List.filter (fun t => isMongoDB t && hasClose t)
                               (transports logger)).
    destruct (promiseAll (map closeCallback closed)) as [|reason|] eqn:Hall;
      cbn [fst snd message_of].
    + split; [discriminate |]. split.
      * rewrite !closeCalls_log_app, closeCalls_map_CloseCalled. cbn.
        rewrite app_nil_r. reflexivity.
      * right. left. split; [| rewrite <- app_assoc; reflexivity].
        apply promiseAll_fulfilled in Hall.
        rewrite Forall_fmap in Hall. exact Hall.
    + split; [discriminate |]. split.
      * rewrite !closeCalls_log_app, closeCalls_map_CloseCalled. cbn.
        rewrite app_nil_r. reflexivity.
      * left. unfold promiseAll in Hall.
        destruct (firstFailure (map closeCallback closed)) as [r|] eqn:Hfirst;
          [| destruct (forallb isCalled (map closeCallback closed)); discriminate].
        injection Hall as ->.
        apply firstFailure_some in Hfirst.
        apply in_map_iff in Hfirst as (t & Ht & Hin).
        exists t, reason. split; [exact Hin |].
        split; [exact Ht | rewrite <- app_assoc; reflexivity].
    + split; [discriminate |]. split.
      * rewrite !closeCalls_log_app, closeCalls_map_CloseCalled. reflexivity.
      * right. right. apply promiseAll_pending in Hall as [Hfirst Hnever].
        apply firstFailure_none in Hfirst. rewrite Forall_fmap in Hfirst.
        split; [exact Hfirst |]. split; [| reflexivity].
        apply in_map_iff in Hnever as (t & Ht & Hin). exists t. split; assumption.
  - cbn. split; [discriminate |]. split; [rewrite closeCalls_log_app; reflexivity |].
    reflexivity.
Qed.

End ClosingLoggers.

(** ** Closing the logger of createLog (createLog.js, closeLog.js) *)

Section LoggerRoundTrip.
Import CreateLog CloseLog.
Context (validate : Tenant -> Validated * list ValidationError).
Context (isDebugging : bool).
Context (closeCallback : Transport -> Callback).
Context (hasClose : Transport -> bool).

Lemma createLogTry_logger (v : Validated) (w w' : World) (logger : Logger) :
  createLogTry isDebugging v w = (Normal logger, w') ->
  logger = mkLogger "info"
             [ConsoleTransport;
              MongoDBTransport (db_url v) (log_collection_name v) "info"].
Proof.
  unfold createLogTry, createCollection, listIndexes, createIndex.
  repeat case_match; intros [= <- _]; reflexivity.
Qed.

Lemma createLog_logger (tenant : Tenant) (w : World) (logger : Logger) :
  fst (createLog validate isDebugging tenant w) = Normal logger ->
  logger = mkLogger "info"
             [ConsoleTransport;
              MongoDBTransport (db_url (fst (validate tenant)))
                (log_collection_name (fst (validate tenant))) "info"].
Proof.
  unfold createLog. destruct (validate tenant) as [v errors]. cbn [fst].
  destruct (0 <? length errors)%nat; [discriminate |].
  destruct (truthyBool (log_capped v) && truthyNumber (log_expiration_days v));
    [discriminate |].
  destruct (createLogTry isDebugging v w) as [[l|err] w'] eqn:Htry;
    [| discriminate].
  intros [= <-]. apply (createLogTry_logger v w w' l Htry).
Qed.

(** X23. Every logger [createLog] returns has a console transport and one
    MongoDB transport, on the validated [db_url] and log collection, both at
    level "info". [closeLog] on that logger calls [close] on the MongoDB
    transport, once, and on nothing else, and never raises; it returns
    exactly when that [close] calls the function it is given: with a [close]
    that never calls it, [closeLog] never settles and logs neither the
    success line nor an error line. *)
Theorem closeLog_closes_transport_of_createLog
    (tenant : Tenant) (w : World) (logger : Logger) (events : list Event) :
  fst (createLog validate isDebugging tenant w) = Normal logger ->
  let mongo :=
    MongoDBTransport (db_url (fst (validate tenant)))
      (log_collection_name (fst (validate tenant))) "info" in
  let result := closeLog closeCallback hasClose (Some logger) events in
  logger = mkLogger "info" [ConsoleTransport; mongo] /\
  closeCalls (snd result)
  = (closeCalls events ++ (if hasClose mongo then [mongo] else []))%list /\
  (forall err, fst result <> Some (Throw err)) /\
  (fst result = Some (Normal tt) <->
   hasClose mongo = false \/ closeCallback mongo <> NeverCalled) /\
  (hasClose mongo = true -> closeCallback mongo = NeverCalled ->
   result = (None, (events ++ [CloseCalled mongo])%list)).
Proof.
  intros Hcreated mongo result.
  pose proof (createLog_logger tenant w logger Hcreated) as Hlogger.
  fold mongo in Hlogger. split; [exact Hlogger |].
  unfold result. rewrite Hlogger. unfold closeLog, closeLogTry, closeTransports.
  rewrite closeTransports_from. cbn [transports List.filter isMongoDB andb].
  change (isMongoDB mongo) with true. cbn [andb].
  destruct (hasClose mongo); cbn [map app].
  - unfold promiseAll. destruct (closeCallback mongo) as [|[reason|]];
      cbn [firstFailure forallb isCalled andb fst snd];
      rewrite ?closeCalls_log_app; cbn [closeCalls flat_map app];
      rewrite ?app_nil_r;
      (split; [reflexivity |]); (split; [discriminate |]); split;
      try (intros _ Hnever; (reflexivity || discriminate));
      try (split; [intros _; right; discriminate | reflexivity]).
    split; [discriminate |]. intros [Hno | Hne]; [discriminate | destruct (Hne eq_refl)].
  - cbn [promiseAll firstFailure forallb fst snd].
    rewrite ?closeCalls_log_app. cbn [closeCalls flat_map app].
    rewrite ?app_nil_r.
    split; [reflexivity |]. split; [discriminate |].
    split; [split; [intros _; left; reflexivity | reflexivity] | discriminate].
Qed.

End LoggerRoundTrip.

Section LoggerRoundTripExamples.
Import CreateLog CloseLog.

Lemma closeLog_closes_transport_of_createLog_witness :
  exists logger,
    fst (createLog schemaValidate false ttlOnly emptyStore) = Normal logger /\
    closeLog ignoresCallback (fun _ => true) (Some logger) []
    = (None, [CloseCalled (MongoDBTransport "mongodb://localhost/app" "logs" "info")]).
Proof.
  eexists. split; [reflexivity |].
  destruct (closeLog_closes_transport_of_createLog schemaValidate false
              ignoresCallback (fun _ => true) ttlOnly emptyStore _ [] eq_refl)
    as (_ & _ & _ & _ & Hpending).
  apply Hpending; reflexivity.
Defined.

End LoggerRoundTripExamples.

Section ServiceLifeCycleExamples.
Import MongoDatabase MongoDatabaseService.

Lemma disconnect_keeps_private_connection_witness :
  connection (snd (connect urlConnection localService))
  = Some "mongodb://localhost/app" /\
  connection (snd (disconnect closeAlways (snd (connect urlConnection localService))))
  = Some "mongodb://localhost/app" /\
  closeCalls (snd (disconnect closeAlways
                     (snd (disconnect closeAlways
                             (snd (connect urlConnection localService))))))
  = ["mongodb://localhost/app"; "mongodb://localhost/app"].
Proof.
  split; [reflexivity |].
  destruct (disconnect_keeps_private_connection
              (fun (_ : string) (name schema : string) => Normal (name, schema))
              closeAlways
              (snd (connect urlConnection localService)))
    as (_ & Hkept & _ & Hclosed & _).
  split; [rewrite Hkept; reflexivity |].
  apply (Hclosed "mongodb://localhost/app" eq_refl).
Defined.

End ServiceLifeCycleExamples.
